(** * PixelCascade: the fan-out image pipeline, embedded and verified

    The repository holds four AWS Lambda entry points written in Go:
    the upload notifier (S3 event -> SNS), and three SQS consumers, the
    metadata extractor, the JPEG converter and the resizer.  Each one is
    a [handler] that loops over the records of its event and talks to
    AWS through SDK clients.

    The embedding is shallow.  Go strings and byte slices are lists of
    8-bit characters; every call that leaves the process (S3, DynamoDB,
    SNS, the local file system, the SDK configuration) is answered by
    an environment [Env] as a function of the calls made so far, and is
    recorded in a trace; an [error] return is a value of [result]. *)

From Stdlib Require Import Ascii String ZArith Permutation.
From stdpp Require Import base list gmap strings pretty.

Local Open Scope list_scope.

(** ** Go strings *)

(** A Go [string] (and a [[]byte]) is a sequence of bytes. *)
Abbreviation gostring := (list ascii).
Abbreviation bytes := (list ascii).

(** A string literal. *)
Definition str (s : string) : gostring := list_ascii_of_string s.

(** ** Package [strings] and package [path/filepath] (GOOS=linux)

    The Lambda runtime is Linux: the path separator is ['/'] and a path
    has no volume name.  The functions below follow the Go library text
    loop by loop. *)

Module strings.

(** [len(s) >= len(suffix) && s[len(s)-len(suffix):] == suffix] *)
Definition HasSuffix (s suffix : gostring) : bool :=
  (length suffix <=? length s)%nat
  && bool_decide (drop (length s - length suffix) s = suffix).

(** [if HasSuffix(s, suffix) { return s[:len(s)-len(suffix)] }; return s] *)
Definition TrimSuffix (s suffix : gostring) : gostring :=
  if HasSuffix s suffix then take (length s - length suffix) s else s.

End strings.

Module filepath.

Definition Separator : ascii := "/"%char.

(** [os.IsPathSeparator] *)
Definition IsPathSeparator (c : ascii) : bool := bool_decide (c = Separator).

(** The first loop of [Base]:
    [for len(path) > 0 && os.IsPathSeparator(path[len(path)-1])
       { path = path[0 : len(path)-1] }].
    Each turn shortens [path] by one byte, so [length path] turns are
    enough. *)
Fixpoint strip_trailing (turns : nat) (path : gostring) : gostring :=
  match turns with
  | O => path
  | S turns' =>
      match path !! (length path - 1)%nat with
      | Some c =>
          if IsPathSeparator c
          then strip_trailing turns' (take (length path - 1) path)
          else path
      | None => path
      end
  end.

(** The second loop of [Base], started at [i = len(path) - 1]:
    [for i >= 0 && !os.IsPathSeparator(path[i]) { i-- }];
    [if i >= 0 { path = path[i+1:] }].
    The argument [n] is [i + 1]. *)
Fixpoint last_element (path : gostring) (n : nat) : gostring :=
  match n with
  | O => path
  | S i =>
      match path !! i with
      | Some c => if IsPathSeparator c then drop (S i) path
                  else last_element path i
      | None => path
      end
  end.

(** [filepath.Base] *)
Definition Base (path : gostring) : gostring :=
  match path with
  | [] => str "."
  | _ =>
      let path := strip_trailing (length path) path in
      let path := last_element path (length path) in
      match path with
      | [] => [Separator]
      | _ => path
      end
  end.

(** The loop of [Ext]:
    [for i := len(path) - 1; i >= 0 && !os.IsPathSeparator(path[i]); i--
       { if path[i] == '.' { return path[i:] } }; return ""].
    The argument [n] is [i + 1]. *)
Fixpoint Ext_loop (path : gostring) (n : nat) : gostring :=
  match n with
  | O => []
  | S i =>
      match path !! i with
      | Some c =>
          if IsPathSeparator c then []
          else if bool_decide (c = "."%char) then drop i path
          else Ext_loop path i
      | None => []
      end
  end.

(** [filepath.Ext] *)
Definition Ext (path : gostring) : gostring := Ext_loop path (length path).

End filepath.

(** ** Errors, events and the environment *)

(** A non-nil Go [error]; [nil] is [None] where an [error] is returned
    alone, and [Ok] where it comes with a value. *)
Definition error : Type := gostring.

Inductive result (A : Type) : Type :=
| Ok (a : A)
| Err (e : error).
Arguments Ok {A} a.
Arguments Err {A} e.

(** [type messageBody struct { Bucket string `json:"bucket"`; Key string
    `json:"key"` }]: declared alike by the three workers, and the shape
    of the notifier's anonymous payload struct. *)
Record messageBody : Type := { Bucket : gostring; Key : gostring }.

(** DynamoDB attribute values, the two members the code builds. *)
#[warnings="-register-all"]
Inductive AttributeValue : Type :=
| AttributeValueMemberS (Value : gostring)
| AttributeValueMemberM (Value : gmap gostring AttributeValue).

(** Package [events] of aws-lambda-go: the fields the handlers read. *)
Module events.
Record SQSMessage : Type := { MessageId : gostring; Body : gostring }.
Record SQSEvent : Type := { Records : list SQSMessage }.
Record S3Bucket : Type := { Name : gostring }.
Record S3Object : Type := { URLDecodedKey : gostring }.
Record S3Entity : Type := { Bucket : S3Bucket; Object : S3Object }.
Record S3EventRecord : Type := { S3 : S3Entity }.
Record S3Event : Type := { S3Records : list S3EventRecord }.
End events.

(** A call that leaves the process. *)
Inductive Call : Type :=
| LoadDefaultConfig
| S3GetObject (bucket key : gostring)
| S3PutObject (bucket key : gostring) (body : bytes)
| DynamoPutItem (table : gostring) (item : gmap gostring AttributeValue)
| SnsPublish (topicArn message : gostring)
| OsWriteFile (name : gostring) (data : bytes)
| OsOpen (name : gostring)
| OsStat (name : gostring)
| OsRemove (name : gostring).

(** A call with its outcome: [None] when it returned a nil error. *)
Record Event : Type := { ev_call : Call; ev_err : option error }.

(** The calls made so far, oldest first. *)
Abbreviation Trace := (list Event).

(** [image.Config], [os.FileInfo], [jpeg.Options] and
    [s3.GetObjectOutput], reduced to the fields the code reads.  A
    reader ([io.Reader]: the body of an S3 object, streamed from the
    network) is the bytes it delivers and the error it then ends with,
    [None] when it ends with the end of the stream. *)
Module image.
Record Config : Type := { Width : Z; Height : Z }.
End image.
Record FileInfo : Type := { fi_Name : gostring; fi_Size : Z; fi_ModTime : Z }.
Record jpeg_Options : Type := { Quality : Z }.
Record Reader : Type := { delivered : bytes; read_error : option error }.
Record GetObjectOutput : Type := { out_Body : Reader }.

(** [resize.InterpolationFunction] of nfnt/resize: the one used. *)
Inductive InterpolationFunction : Type := Lanczos3.

(** Everything outside the repository.  The AWS services, the SDK
    configuration and the local file system answer as a function of
    the calls made so far (so that a service may fail at any call, and
    a read may see an earlier write); the codecs, [encoding/json],
    [filepath.Join], [time.Format] and nfnt/resize are pure.
    [image.Decode] is given the reader itself: how far it reads and
    what it makes of a read error is the decoder's.  [image_Dx] and
    [image_Dy] are [img.Bounds().Dx()] and [img.Bounds().Dy()].
    [go_schedule] is the order in which the Go runtime lets a group of
    goroutines, each making one service call, reach that call. *)
Class Env : Type := {
  Image : Type;
  image_Dx : Image -> N;
  image_Dy : Image -> N;
  config_LoadDefaultConfig : Trace -> option error;
  s3_GetObject : Trace -> gostring -> gostring -> result GetObjectOutput;
  s3_PutObject : Trace -> gostring -> gostring -> bytes -> option error;
  dynamodb_PutItem :
    Trace -> gostring -> gmap gostring AttributeValue -> option error;
  sns_Publish : Trace -> gostring -> gostring -> result gostring;
  os_WriteFile : Trace -> gostring -> bytes -> option error;
  os_Open : Trace -> gostring -> option error;
  os_Stat : Trace -> gostring -> result FileInfo;
  os_Remove : Trace -> gostring -> option error;
  json_Unmarshal : bytes -> result messageBody;
  json_Marshal : messageBody -> result bytes;
  image_Decode : Reader -> result (Image * gostring);
  image_DecodeConfig : bytes -> result (image.Config * gostring);
  jpeg_Encode : Image -> jpeg_Options -> result bytes;
  resize_Resize : N -> N -> Image -> InterpolationFunction -> Image;
  filepath_Join : gostring -> gostring -> gostring;
  time_Format : Z -> gostring -> gostring;
  go_schedule : forall A : Type, list A -> list A
}.

(** ** Go control flow as a monad

    A computation reads the trace so far and returns the events it
    adds, with its value or the error it returned early with. *)
Definition M (A : Type) : Type := Trace -> list Event * result A.

Definition ret {A : Type} (a : A) : M A := fun _ => ([], Ok a).

(** [v, err := m; if err != nil { return err }; k v] *)
Definition bind {A B : Type} (m : M A) (k : A -> M B) : M B := fun t =>
  match m t with
  | (evs, Ok a) => let '(evs', r) := k a (t ++ evs) in (evs ++ evs', r)
  | (evs, Err e) => (evs, Err e)
  end.

#[global] Instance M_ret : MRet M := @ret.
#[global] Instance M_bind : MBind M := fun A B k m => bind m k.

(** A library call that returns [(value, err)] and touches nothing. *)
Definition lift {A : Type} (r : result A) : M A := fun _ => ([], r).

(** A traced call that returns [(value, err)]. *)
Definition call {A : Type} (c : Call) (answer : Trace -> result A) : M A :=
  fun t =>
    match answer t with
    | Ok a => ([{| ev_call := c; ev_err := None |}], Ok a)
    | Err e => ([{| ev_call := c; ev_err := Some e |}], Err e)
    end.

(** A traced call that returns [err] alone. *)
Definition call_err (c : Call) (answer : Trace -> option error) : M unit :=
  fun t =>
    match answer t with
    | None => ([{| ev_call := c; ev_err := None |}], Ok tt)
    | Some e => ([{| ev_call := c; ev_err := Some e |}], Err e)
    end.

(** [defer cleanup] followed by [body]: [cleanup] runs when [body]
    returns, with a value or with an error, and its own result is
    dropped. *)
Definition defer {A : Type} (cleanup : M unit) (body : M A) : M A := fun t =>
  let '(evs, r) := body t in
  let '(evs', _) := cleanup (t ++ evs) in
  (evs ++ evs', r).

(** [for _, x := range xs { body x }], where [body] may return early
    with an error. *)
Fixpoint range {A : Type} (xs : list A) (body : A -> M unit) : M unit :=
  match xs with
  | [] => ret tt
  | x :: xs' => bind (body x) (fun _ => range xs' body)
  end.

(** [go func() { defer wg.Done(); body }()]: a goroutine has no return
    value; a [return] inside it ends the goroutine and nothing else. *)
Definition go (body : M unit) : M unit := fun t =>
  let '(evs, _) := body t in (evs, Ok tt).

(** [io.ReadAll]: everything the reader delivers, or the error it ends
    with (the caller drops what was read until then). *)
Definition io_ReadAll (r : Reader) : result bytes :=
  match read_error r with
  | None => Ok (delivered r)
  | Some e => Err e
  end.

(** What a handler returned: [None] for [nil]. *)
Definition returned {A : Type} (out : list Event * result A) : option error :=
  match out.2 with
  | Ok _ => None
  | Err e => Some e
  end.

(** The blobs in the store after a trace, from the blobs before it:
    a [PutObject] that succeeded overwrites its key. *)
Definition blob_store (before : gmap (gostring * gostring) bytes) (t : Trace)
  : gmap (gostring * gostring) bytes :=
  foldl (fun m ev =>
           match ev with
           | {| ev_call := S3PutObject bucket key body; ev_err := None |} =>
               <[(bucket, key) := body]> m
           | _ => m
           end) before t.

(** The writes of a trace: the uploads and the table puts, failed ones
    included. *)
Definition is_write (ev : Event) : bool :=
  match ev_call ev with
  | S3PutObject _ _ _ | DynamoPutItem _ _ => true
  | _ => false
  end.

Definition writes (t : Trace) : Trace := filter (fun ev => is_write ev = true) t.

(** ** The workers *)

Section Workers.

Context `{Env}.

(** [sdkConfig, err := config.LoadDefaultConfig(ctx)]: the first
    statement of every handler. *)
Definition loadDefaultConfig : M unit :=
  call_err LoadDefaultConfig config_LoadDefaultConfig.

(** [strconv.Itoa] and [strconv.FormatInt(_, 10)]. *)
Definition strconv_Itoa (n : Z) : gostring := str (pretty n).

Definition RFC3339 : gostring := str "2006-01-02T15:04:05Z07:00".

End Workers.

(** *** metadata-extractor-function/main.go *)
Module Metadata.
Section Metadata.

Context `{Env}.

Definition tableName : gostring := str "pixel-metadata".

Definition extractFilename (input : gostring) : gostring :=
  let base := filepath.Base input in
  let name := strings.TrimSuffix base (filepath.Ext base) in
  name.

Definition getObject (bucket key : gostring) : M GetObjectOutput :=
  call (S3GetObject bucket key) (fun t => s3_GetObject t bucket key).

Definition createDynamoDBItem (item : gmap gostring AttributeValue)
  : M unit :=
  call_err (DynamoPutItem tableName item)
           (fun t => dynamodb_PutItem t tableName item).

Definition convertToAttributeValue (data : gmap gostring gostring)
  : gmap gostring AttributeValue :=
  AttributeValueMemberS <$> data.

(** The temporary file is written, then opened and read by the same
    call: [file] reads back the bytes just written. *)
Definition generateMetadata (bucket key : gostring)
  : M (gmap gostring gostring) :=
  objOutput ← getObject bucket key;
  bodyBytes ← lift (io_ReadAll (out_Body objOutput));
  let localFilePath := filepath_Join (str "/tmp") (filepath.Base key) in
  _ ← call_err (OsWriteFile localFilePath bodyBytes)
               (fun t => os_WriteFile t localFilePath bodyBytes);
  defer (call_err (OsRemove localFilePath)
                  (fun t => os_Remove t localFilePath))
    (_ ← call_err (OsOpen localFilePath) (fun t => os_Open t localFilePath);
     let file := bodyBytes in
     '(cfg, format) ← lift (image_DecodeConfig file);
     fileInfo ← call (OsStat localFilePath) (fun t => os_Stat t localFilePath);
     let metadata : gmap gostring gostring :=
       <[str "width" := strconv_Itoa (image.Width cfg)]>
       (<[str "height" := strconv_Itoa (image.Height cfg)]>
       (<[str "format" := format]>
       (<[str "file_size" := strconv_Itoa (fi_Size fileInfo)]>
       (<[str "file_name" := fi_Name fileInfo]>
       (<[str "last_modified" := time_Format (fi_ModTime fileInfo) RFC3339]>
        ∅))))) in
     mret metadata).

(** The body of the [for _, record := range event.Records] loop. *)
Definition handle_record (record : events.SQSMessage) : M unit :=
  body ← lift (json_Unmarshal (events.Body record));
  metadata ← generateMetadata (Bucket body) (Key body);
  createDynamoDBItem
    (<[str "name" := AttributeValueMemberS (extractFilename (Key body))]>
    (<[str "bucket" := AttributeValueMemberS (Bucket body)]>
    (<[str "metadata" :=
         AttributeValueMemberM (convertToAttributeValue metadata)]>
     ∅))).

Definition handler (event : events.SQSEvent) : M unit :=
  _ ← loadDefaultConfig;
  range (events.Records event) handle_record.

End Metadata.
End Metadata.

(** *** The converter worker (source lines 1-141 of the second file) *)
Module Converter.
Section Converter.

Context `{Env}.

Definition ConvertedFolder : gostring := str "converted/".

Definition extractFilename (input : gostring) : gostring :=
  let base := filepath.Base input in
  let name := strings.TrimSuffix base (filepath.Ext base) in
  name.

Definition getObject (bucket key : gostring) : M GetObjectOutput :=
  call (S3GetObject bucket key) (fun t => s3_GetObject t bucket key).

Definition putObject (bucket key : gostring) (body : bytes) : M unit :=
  call_err (S3PutObject bucket key body)
           (fun t => s3_PutObject t bucket key body).

Definition convertToJPEG (img : Image) : result bytes :=
  let options := {| Quality := 100 |} in
  jpeg_Encode img options.

(** The body of the [for _, record := range event.Records] loop. *)
Definition handle_record (record : events.SQSMessage) : M unit :=
  body ← lift (json_Unmarshal (events.Body record));
  objOutput ← getObject (Bucket body) (Key body);
  '(img, format) ← lift (image_Decode (out_Body objOutput));
  jpegImg ← lift (convertToJPEG img);
  putObject (Bucket body)
            (ConvertedFolder ++ extractFilename (Key body) ++ str ".jpg")
            jpegImg.

Definition handler (event : events.SQSEvent) : M unit :=
  _ ← loadDefaultConfig;
  range (events.Records event) handle_record.

End Converter.
End Converter.

(** *** The resizer worker (source lines 142-315 of the second file) *)
Module Resizer.

Record resizeTask : Type := { SizeName : gostring; Width : N }.

Section Resizer.

Context `{Env}.

Definition ResizedFolder : gostring := str "resized/".

Definition extractFilename (input : gostring) : gostring :=
  let base := filepath.Base input in
  let name := strings.TrimSuffix base (filepath.Ext base) in
  name.

Definition getObject (bucket key : gostring) : M GetObjectOutput :=
  call (S3GetObject bucket key) (fun t => s3_GetObject t bucket key).

Definition putObject (bucket key : gostring) (body : bytes) : M unit :=
  call_err (S3PutObject bucket key body)
           (fun t => s3_PutObject t bucket key body).

Definition convertToJPEG (img : Image) : result bytes :=
  let options := {| Quality := 100 |} in
  jpeg_Encode img options.

Definition resizeTasks : list resizeTask :=
  [ {| SizeName := str "thumbnail"; Width := 100 |};
    {| SizeName := str "medium"; Width := 500 |};
    {| SizeName := str "large"; Width := 1000 |} ].

(** The function literal started with [go] for each task.  Its first
    test, [if err != nil] after [resize.Resize], reads the [err] of
    the enclosing loop body, which is nil once the decode check is
    passed: the branch is never taken. *)
Definition resize_goroutine (body : messageBody) (img : Image)
           (task : resizeTask) : M unit :=
  let resizedImg := resize_Resize (Width task) 0 img Lanczos3 in
  jpegImg ← lift (convertToJPEG resizedImg);
  putObject (Bucket body)
            (ResizedFolder ++ extractFilename (Key body) ++ str "/"
               ++ SizeName task ++ str ".jpg")
            jpegImg.

(** The body of the [for _, record := range event.Records] loop:
    the goroutines are started in task order, reach S3 in the order
    [go_schedule] gives, and [wg.Wait()] joins them. *)
Definition handle_record (record : events.SQSMessage) : M unit :=
  body ← lift (json_Unmarshal (events.Body record));
  objOutput ← getObject (Bucket body) (Key body);
  '(img, format) ← lift (image_Decode (out_Body objOutput));
  range (go_schedule resizeTask resizeTasks)
        (fun task => go (resize_goroutine body img task)).

Definition handler (event : events.SQSEvent) : M unit :=
  _ ← loadDefaultConfig;
  range (events.Records event) handle_record.

End Resizer.
End Resizer.

(** *** The upload notifier (the third file) *)
Module Notifier.
Section Notifier.

Context `{Env}.

Definition newImageUploadedTopicArn : gostring :=
  str "arn:aws:sns:us-east-1:116981782358:new-image-uploaded".

(** The body of the [for _, record := range s3Event.Records] loop. *)
Definition handle_record (record : events.S3EventRecord) : M unit :=
  let bucket := events.Name (events.Bucket (events.S3 record)) in
  let key := events.URLDecodedKey (events.Object (events.S3 record)) in
  let payload := {| Bucket := bucket; Key := key |} in
  m ← lift (json_Marshal payload);
  let message := m in
  resp ← call (SnsPublish newImageUploadedTopicArn message)
              (fun t => sns_Publish t newImageUploadedTopicArn message);
  mret tt.

Definition handler (s3Event : events.S3Event) : M unit :=
  _ ← loadDefaultConfig;
  range (events.S3Records s3Event) handle_record.

End Notifier.
End Notifier.

(** ** The three queue workers, side by side *)

Inductive Worker : Type := MetadataWorker | ConverterWorker | ResizerWorker.

Definition handle_record_of `{Env} (w : Worker) : events.SQSMessage -> M unit :=
  match w with
  | MetadataWorker => Metadata.handle_record
  | ConverterWorker => Converter.handle_record
  | ResizerWorker => Resizer.handle_record
  end.

Definition handler_of `{Env} (w : Worker) : events.SQSEvent -> M unit :=
  match w with
  | MetadataWorker => Metadata.handler
  | ConverterWorker => Converter.handler
  | ResizerWorker => Resizer.handler
  end.

(** The decode step each worker makes on the body of a fetched object,
    and the error it gives, if any: the metadata extractor reads the
    body to the end and decodes the header of what it read with
    [image.DecodeConfig]; the other two hand the body to
    [image.Decode], which decodes the pixels. *)
Definition decode_error `{Env} (w : Worker) (body : Reader) : option error :=
  match w with
  | MetadataWorker =>
      match io_ReadAll body with
      | Ok b => match image_DecodeConfig b with Ok _ => None | Err e => Some e end
      | Err _ => None
      end
  | ConverterWorker | ResizerWorker =>
      match image_Decode body with Ok _ => None | Err e => Some e end
  end.

(** The events a handler may leave in a trace. *)
Definition ok (c : Call) : Event := {| ev_call := c; ev_err := None |}.
Definition failed (c : Call) (e : error) : Event :=
  {| ev_call := c; ev_err := Some e |}.

(** The uploads of a trace, and the messages published in it. *)
Definition is_upload (ev : Event) : bool :=
  match ev_call ev with
  | S3PutObject _ _ _ => true
  | _ => false
  end.

Definition uploads (t : Trace) : Trace :=
  filter (fun ev => is_upload ev = true) t.

Definition published (t : Trace) : list (gostring * gostring) :=
  omap (fun ev => match ev_call ev with
                  | SnsPublish topicArn message => Some (topicArn, message)
                  | _ => None
                  end) t.

(** The payload the notifier builds for a record. *)
Definition payload_of (record : events.S3EventRecord) : messageBody :=
  {| Bucket := events.Name (events.Bucket (events.S3 record));
     Key := events.URLDecodedKey (events.Object (events.S3 record)) |}.

(** ** A small world to run the handlers in

    One bucket with three objects: two PNG files and one that is not an
    image.  Every service call succeeds, except the upload of the
    medium size of [photos/bbb.png] and the publication of the event
    for [photos/bad.png].  Goroutines reach S3 in reverse order. *)
Module Demo.

Definition quote : ascii := ascii_of_nat 34.

Definition png : bytes := str "PNG 640x480".
Definition garbage : bytes := str "not an image".

Definition marshal (m : messageBody) : bytes :=
  str "{" ++ quote :: str "bucket" ++ quote :: str ":" ++ quote :: Bucket m
    ++ quote :: str "," ++ quote :: str "key" ++ quote :: str ":"
    ++ quote :: Key m ++ quote :: str "}".

Definition uploaded (key : string) : messageBody :=
  {| Bucket := str "pixel"; Key := str key |}.

Definition known : list messageBody :=
  [uploaded "photos/aaa.png"; uploaded "photos/bbb.png";
   uploaded "photos/bad.png"; uploaded "photos/gone.png"].

Definition unmarshal (b : bytes) : result messageBody :=
  match filter (fun m => marshal m = b) known with
  | m :: _ => Ok m
  | [] => Err (str "invalid character")
  end.

Definition stream (b : bytes) : Reader :=
  {| delivered := b; read_error := None |}.

Definition get (t : Trace) (bucket key : gostring) : result GetObjectOutput :=
  if bool_decide (key = str "photos/aaa.png")
  then Ok {| out_Body := stream png |}
  else if bool_decide (key = str "photos/bbb.png")
       then Ok {| out_Body := stream png |}
  else if bool_decide (key = str "photos/bad.png")
       then Ok {| out_Body := stream garbage |}
  else Err (str "NoSuchKey").

Definition put (t : Trace) (bucket key : gostring) (body : bytes)
  : option error :=
  if bool_decide (key = str "resized/bbb/medium.jpg")
  then Some (str "RequestTimeout") else None.

Definition publish (t : Trace) (topicArn message : gostring)
  : result gostring :=
  if bool_decide (message = marshal (uploaded "photos/bad.png"))
  then Err (str "Throttled") else Ok (str "id").

Definition decode (r : Reader) : result ((N * bytes) * gostring) :=
  if bool_decide (delivered r = png) then Ok ((640%N, delivered r), str "png")
  else Err (str "image: unknown format").

Definition decodeConfig (b : bytes) : result (image.Config * gostring) :=
  if bool_decide (b = png)
  then Ok ({| image.Width := 640; image.Height := 480 |}, str "png")
  else Err (str "image: unknown format").

Definition encode (img : N * bytes) (o : jpeg_Options) : result bytes :=
  Ok (str "JPEG " ++ str (pretty img.1) ++ str " q" ++ str (pretty (Quality o))).

#[export] Instance env : Env := {|
  Image := N * bytes;
  image_Dx := fun img => img.1;
  image_Dy := fun img => (img.1 * 3 / 4)%N;
  config_LoadDefaultConfig := fun _ => None;
  s3_GetObject := get;
  s3_PutObject := put;
  dynamodb_PutItem := fun _ _ _ => None;
  sns_Publish := publish;
  os_WriteFile := fun _ _ _ => None;
  os_Open := fun _ _ => None;
  os_Stat := fun _ name =>
    Ok {| fi_Name := filepath.Base name; fi_Size := 11; fi_ModTime := 0 |};
  os_Remove := fun _ _ => None;
  json_Unmarshal := unmarshal;
  json_Marshal := fun m => Ok (marshal m);
  image_Decode := decode;
  image_DecodeConfig := decodeConfig;
  jpeg_Encode := encode;
  resize_Resize := fun w _ img _ => (w, img.2);
  filepath_Join := fun a b => a ++ "/"%char :: b;
  time_Format := fun _ _ => str "1970-01-01T00:00:00Z";
  go_schedule := fun _ l => rev l
|}.

Definition message (key : string) : events.SQSMessage :=
  {| events.MessageId := str key; events.Body := marshal (uploaded key) |}.

Definition batch (keys : list string) : events.SQSEvent :=
  {| events.Records := message <$> keys |}.

Definition notification (key : string) : events.S3EventRecord :=
  {| events.S3 := {| events.Bucket := {| events.Name := str "pixel" |};
                     events.Object := {| events.URLDecodedKey := str key |} |} |}.

End Demo.

(** ** The calls each entry point is written to make

    The messages of an event: the bodies of its records that parse. *)
Definition parsed_bodies `{Env} (event : events.SQSEvent) : list messageBody :=
  omap (fun record =>
          match json_Unmarshal (events.Body record) with
          | Ok body => Some body
          | Err _ => None
          end) (events.Records event).

(** The calls a worker is written to make for the messages [bodies].
    Every worker loads the SDK configuration and fetches the object of
    a message.  Beyond that, the metadata extractor works on the
    temporary copy of a message's object, at
    [filepath.Join("/tmp", filepath.Base(key))], and puts items named
    after a message's key in its table; the converter uploads to the
    converted path of a message's key, in the bucket of the message;
    the resizer uploads to the path of one of the tasks [tasks] for a
    message's key, in the bucket of the message. *)
Definition own_call `{Env} (w : Worker) (tasks : list Resizer.resizeTask)
           (bodies : list messageBody) (c : Call) : Prop :=
  match c with
  | LoadDefaultConfig => True
  | S3GetObject bucket key =>
      exists body, body ∈ bodies /\ bucket = Bucket body /\ key = Key body
  | S3PutObject bucket key _ =>
      match w with
      | MetadataWorker => False
      | ConverterWorker =>
          exists body,
            body ∈ bodies /\ bucket = Bucket body
            /\ key = Converter.ConvertedFolder
                       ++ Converter.extractFilename (Key body) ++ str ".jpg"
      | ResizerWorker =>
          exists body task,
            body ∈ bodies /\ bucket = Bucket body
            /\ task ∈ tasks
            /\ key = Resizer.ResizedFolder
                       ++ Resizer.extractFilename (Key body) ++ str "/"
                       ++ Resizer.SizeName task ++ str ".jpg"
      end
  | DynamoPutItem table item =>
      w = MetadataWorker /\ table = Metadata.tableName
      /\ exists body,
          body ∈ bodies
          /\ item !! str "name"
             = Some (AttributeValueMemberS
                       (Metadata.extractFilename (Key body)))
  | OsWriteFile name _ | OsOpen name | OsStat name | OsRemove name =>
      w = MetadataWorker
      /\ exists body,
          body ∈ bodies
          /\ name = filepath_Join (str "/tmp") (filepath.Base (Key body))
  | SnsPublish _ _ => False
  end.

Definition notifier_call (c : Call) : bool :=
  match c with
  | LoadDefaultConfig => true
  | SnsPublish topicArn _ =>
      bool_decide (topicArn = Notifier.newImageUploadedTopicArn)
  | _ => false
  end.

(** The upload a resize task makes for a message and a decoded image,
    when its encoding succeeds: the argument of [putObject] in the
    goroutine. *)
Definition upload_call `{Env} (body : messageBody) (img : Image)
           (task : Resizer.resizeTask) : option Call :=
  match Resizer.convertToJPEG
          (resize_Resize (Resizer.Width task) 0 img Lanczos3) with
  | Ok jpegImg =>
      Some (S3PutObject (Bucket body)
              (Resizer.ResizedFolder ++ Resizer.extractFilename (Key body)
                 ++ str "/" ++ Resizer.SizeName task ++ str ".jpg")
              jpegImg)
  | Err _ => None
  end.

(** The calls whose error a worker does not return: the [os.Remove]
    that [generateMetadata] defers, whose result is dropped, and the
    uploads the resizer makes inside its goroutines. *)
Definition drops_error (w : Worker) (c : Call) : bool :=
  match w, c with
  | MetadataWorker, OsRemove _ => true
  | ResizerWorker, S3PutObject _ _ _ => true
  | _, _ => false
  end.

(** ** The contract of [resize.Resize]

    The package nfnt/resize is not part of the repository.  Its
    documentation gives [Resize(width, height, img, interp)] as
    returning a new image with the given dimensions and, when one of
    them is 0, with that one computed so that the aspect ratio is the
    one of [img].  For the call the resizer makes (a width that is not
    0, height 0) on an image that has pixels, this is: the result has
    the given width, and its height is the height of [img] scaled by
    the same factor, within one pixel. *)
Definition resize_contract `{Env} : Prop :=
  forall (width : N) (img : Image) (interp : InterpolationFunction),
    width <> 0%N -> (0 < image_Dx img)%N -> (0 < image_Dy img)%N ->
    let resized := resize_Resize width 0 img interp in
    image_Dx resized = width
    /\ (image_Dy resized * image_Dx img
        <= image_Dy img * width + image_Dx img)%N
    /\ (image_Dy img * width
        <= image_Dy resized * image_Dx img + image_Dx img)%N.

(** ** A second world, for two edge cases

    A bucket with a PNG file of 50 by 40 pixels, narrower than every
    target width, and a PNG file cut short after its header: its header
    decodes (640 by 480), its pixels do not.  An image is its width and
    its height; [resize.Resize] with height 0 gives the target width
    and the height [floor (0.7 + Dy * width / Dx)], as nfnt/resize
    computes it; every service call succeeds and the goroutines reach
    S3 in task order. *)
Module Edge.

Definition small : bytes := str "PNG 50x40".
Definition cut : bytes := str "PNG 640x480, cut short".

Definition known : list messageBody :=
  [Demo.uploaded "photos/small.png"; Demo.uploaded "photos/cut.png"].

Definition unmarshal (b : bytes) : result messageBody :=
  match filter (fun m => Demo.marshal m = b) known with
  | m :: _ => Ok m
  | [] => Err (str "invalid character")
  end.

Definition get (t : Trace) (bucket key : gostring) : result GetObjectOutput :=
  if bool_decide (key = str "photos/small.png")
  then Ok {| out_Body := Demo.stream small |}
  else if bool_decide (key = str "photos/cut.png")
       then Ok {| out_Body := Demo.stream cut |}
  else Err (str "NoSuchKey").

Definition decode (r : Reader) : result ((N * N) * gostring) :=
  if bool_decide (delivered r = small) then Ok ((50%N, 40%N), str "png")
  else if bool_decide (delivered r = cut) then Err (str "unexpected EOF")
  else Err (str "image: unknown format").

Definition decodeConfig (b : bytes) : result (image.Config * gostring) :=
  if bool_decide (b = small)
  then Ok ({| image.Width := 50; image.Height := 40 |}, str "png")
  else if bool_decide (b = cut)
       then Ok ({| image.Width := 640; image.Height := 480 |}, str "png")
  else Err (str "image: unknown format").

Definition resize (width height : N) (img : N * N)
           (interp : InterpolationFunction) : N * N :=
  if bool_decide (img.1 = 0%N) then img
  else (width,
        if bool_decide (height = 0%N)
        then ((7 * img.1 + 10 * img.2 * width) / (10 * img.1))%N
        else height).

Definition encode (img : N * N) (o : jpeg_Options) : result bytes :=
  Ok (str "JPEG " ++ str (pretty img.1) ++ str "x" ++ str (pretty img.2)
        ++ str " q" ++ str (pretty (Quality o))).

#[export] Instance env : Env := {|
  Image := N * N;
  image_Dx := fun img => img.1;
  image_Dy := fun img => img.2;
  config_LoadDefaultConfig := fun _ => None;
  s3_GetObject := get;
  s3_PutObject := fun _ _ _ _ => None;
  dynamodb_PutItem := fun _ _ _ => None;
  sns_Publish := fun _ _ _ => Ok (str "id");
  os_WriteFile := fun _ _ _ => None;
  os_Open := fun _ _ => None;
  os_Stat := fun _ name =>
    Ok {| fi_Name := filepath.Base name; fi_Size := 22; fi_ModTime := 0 |};
  os_Remove := fun _ _ => None;
  json_Unmarshal := unmarshal;
  json_Marshal := fun m => Ok (Demo.marshal m);
  image_Decode := decode;
  image_DecodeConfig := decodeConfig;
  jpeg_Encode := encode;
  resize_Resize := resize;
  filepath_Join := fun a b => a ++ "/"%char :: b;
  time_Format := fun _ _ => str "1970-01-01T00:00:00Z";
  go_schedule := fun _ l => l
|}.

End Edge.

(** ** Facts about [strings] and [filepath] *)

Section PathFacts.

Implicit Types (path dir stem ext s : gostring) (c : ascii).

Lemma IsPathSeparator_true c :
  filepath.IsPathSeparator c = true <-> c = "/"%char.
Proof. unfold filepath.IsPathSeparator. by rewrite bool_decide_eq_true. Qed.

Lemma IsPathSeparator_false c :
  filepath.IsPathSeparator c = false <-> c ≠ "/"%char.
Proof. unfold filepath.IsPathSeparator. by rewrite bool_decide_eq_false. Qed.

Lemma TrimSuffix_app s suffix : strings.TrimSuffix (s ++ suffix) suffix = s.
Proof.
  unfold strings.TrimSuffix, strings.HasSuffix.
  rewrite length_app.
  replace (length s + length suffix - length suffix)%nat with (length s) by lia.
  rewrite drop_app_length, take_app_length.
  rewrite bool_decide_true by done.
  destruct (Nat.leb_spec (length suffix) (length s + length suffix)); [done | lia].
Qed.

Lemma TrimSuffix_nil s : strings.TrimSuffix s [] = s.
Proof. rewrite <- (app_nil_r s) at 1. apply TrimSuffix_app. Qed.

(** A path that does not end in a separator keeps its end. *)
Lemma strip_trailing_last turns path c :
  c ≠ "/"%char ->
  filepath.strip_trailing turns (path ++ [c]) = path ++ [c].
Proof.
  intros Hc. destruct turns as [|turns]; [done|].
  unfold filepath.strip_trailing; fold filepath.strip_trailing.
  rewrite length_app. simpl length.
  replace (length path + 1 - 1)%nat with (length path) by lia.
  rewrite list_lookup_middle by done.
  by apply IsPathSeparator_false in Hc as ->.
Qed.

Lemma last_element_S path i :
  filepath.last_element path (S i)
  = match path !! i with
    | Some c => if filepath.IsPathSeparator c then drop (S i) path
                else filepath.last_element path i
    | None => path
    end.
Proof. done. Qed.

Lemma Ext_loop_S path i :
  filepath.Ext_loop path (S i)
  = match path !! i with
    | Some c =>
        if filepath.IsPathSeparator c then []
        else if bool_decide (c = "."%char) then drop i path
        else filepath.Ext_loop path i
    | None => []
    end.
Proof. done. Qed.

(** The backward scan of [Base] walks over bytes that are not
    separators. *)
Lemma last_element_skip path s tail :
  "/"%char ∉ s ->
  filepath.last_element (path ++ s ++ tail) (length path + length s)
  = filepath.last_element (path ++ s ++ tail) (length path).
Proof.
  revert tail. induction s as [|c s IH] using rev_ind; intros tail Hs.
  - by rewrite Nat.add_0_r.
  - rewrite length_app. simpl.
    replace (length path + (length s + 1))%nat
      with (S (length path + length s)) by lia.
    rewrite last_element_S.
    replace (path ++ (s ++ [c]) ++ tail)
      with ((path ++ s) ++ c :: tail) by (by rewrite <- !(assoc_L (++))).
    rewrite list_lookup_middle by (rewrite length_app; lia).
    assert (c ≠ "/"%char) as Hc by (intros ->; apply Hs; set_solver).
    apply IsPathSeparator_false in Hc as ->.
    rewrite <- (assoc_L (++) path s).
    apply (IH (c :: tail)). set_solver.
Qed.

Lemma last_element_plain s :
  "/"%char ∉ s -> filepath.last_element s (length s) = s.
Proof.
  intros Hs. pose proof (last_element_skip [] s [] Hs) as Hskip.
  simpl in Hskip. by rewrite app_nil_r in Hskip.
Qed.

Lemma last_element_after_dir dir s :
  "/"%char ∉ s ->
  filepath.last_element (dir ++ "/"%char :: s) (length (dir ++ "/"%char :: s))
  = s.
Proof.
  intros Hs.
  pose proof (last_element_skip (dir ++ ["/"%char]) s [] Hs) as Hskip.
  rewrite app_nil_r, <- (assoc_L (++) dir) in Hskip. simpl in Hskip.
  rewrite length_app in Hskip |- *. simpl in Hskip |- *.
  replace (length dir + S (length s))%nat
    with (length dir + 1 + length s)%nat by lia.
  rewrite Hskip.
  replace (length dir + 1)%nat with (S (length dir)) by lia.
  rewrite last_element_S, list_lookup_middle by done.
  assert (filepath.IsPathSeparator "/" = true) as -> by done.
  rewrite (cons_middle "/"%char dir s), (assoc_L (++)).
  apply drop_app_length'. rewrite length_app. simpl. lia.
Qed.

Lemma Base_nonempty path :
  path ≠ [] ->
  filepath.Base path
  = let path := filepath.strip_trailing (length path) path in
    let path := filepath.last_element path (length path) in
    match path with
    | [] => [filepath.Separator]
    | _ => path
    end.
Proof. by destruct path. Qed.

(** [Base] of a path whose last element [s] is not empty. *)
Lemma Base_after_dir dir s :
  s ≠ [] -> "/"%char ∉ s -> filepath.Base (dir ++ "/"%char :: s) = s.
Proof.
  intros Hne Hs. rewrite Base_nonempty by (by destruct dir). cbv zeta.
  destruct (exists_last Hne) as (s' & c & ->).
  assert (c ≠ "/"%char) as Hc by (intros ->; apply Hs; set_solver).
  replace (dir ++ "/"%char :: s' ++ [c])
    with ((dir ++ "/"%char :: s') ++ [c]) by (by rewrite <- (assoc_L (++))).
  rewrite strip_trailing_last by done.
  rewrite <- (assoc_L (++)). simpl app.
  rewrite last_element_after_dir by done.
  by destruct s'.
Qed.

Lemma Base_plain s : s ≠ [] -> "/"%char ∉ s -> filepath.Base s = s.
Proof.
  intros Hne Hs. rewrite Base_nonempty by done. cbv zeta.
  destruct (exists_last Hne) as (s' & c & ->).
  assert (c ≠ "/"%char) as Hc by (intros ->; apply Hs; set_solver).
  rewrite strip_trailing_last by done.
  rewrite last_element_plain by done.
  by destruct s'.
Qed.

(** The backward scan of [Ext] walks over bytes that are neither a
    dot nor a separator. *)
Lemma Ext_loop_skip path s tail :
  "."%char ∉ s -> "/"%char ∉ s ->
  filepath.Ext_loop (path ++ s ++ tail) (length path + length s)
  = filepath.Ext_loop (path ++ s ++ tail) (length path).
Proof.
  revert tail. induction s as [|c s IH] using rev_ind; intros tail Hdot Hsep.
  - by rewrite Nat.add_0_r.
  - rewrite length_app. simpl.
    replace (length path + (length s + 1))%nat
      with (S (length path + length s)) by lia.
    rewrite Ext_loop_S.
    replace (path ++ (s ++ [c]) ++ tail)
      with ((path ++ s) ++ c :: tail) by (by rewrite <- !(assoc_L (++))).
    rewrite list_lookup_middle by (rewrite length_app; lia).
    assert (c ≠ "/"%char) as Hc by (intros ->; apply Hsep; set_solver).
    assert (c ≠ "."%char) as Hd by (intros ->; apply Hdot; set_solver).
    apply IsPathSeparator_false in Hc as ->.
    rewrite bool_decide_false by done.
    rewrite <- (assoc_L (++) path s).
    apply (IH (c :: tail)); set_solver.
Qed.

(** [Ext] of a name that ends in a dot and an extension. *)
Lemma Ext_dot stem ext :
  "."%char ∉ ext -> "/"%char ∉ ext ->
  filepath.Ext (stem ++ "."%char :: ext) = "."%char :: ext.
Proof.
  intros Hdot Hsep. unfold filepath.Ext.
  pose proof (Ext_loop_skip (stem ++ ["."%char]) ext [] Hdot Hsep) as Hskip.
  rewrite app_nil_r, <- (assoc_L (++) stem) in Hskip. simpl in Hskip.
  rewrite length_app in Hskip |- *. simpl in Hskip |- *.
  replace (length stem + S (length ext))%nat
    with (length stem + 1 + length ext)%nat by lia.
  rewrite Hskip.
  replace (length stem + 1)%nat with (S (length stem)) by lia.
  rewrite Ext_loop_S, list_lookup_middle by done.
  assert (filepath.IsPathSeparator "." = false) as -> by done.
  rewrite bool_decide_true by done.
  by rewrite (drop_app_length' stem ("."%char :: ext) (length stem)).
Qed.

(** [Ext] of a name without a dot. *)
Lemma Ext_loop_no_dot s n : "."%char ∉ s -> filepath.Ext_loop s n = [].
Proof.
  intros Hdot. induction n as [|i IH]; [done|].
  rewrite Ext_loop_S. destruct (s !! i) as [c|] eqn:Hc; [|done].
  destruct (filepath.IsPathSeparator c); [done|].
  rewrite bool_decide_false; [done|].
  intros ->. apply Hdot. by eapply list_elem_of_lookup_2.
Qed.

Lemma Ext_no_dot s : "."%char ∉ s -> filepath.Ext s = [].
Proof. apply Ext_loop_no_dot. Qed.

End PathFacts.

(** ** Running the monad *)

Ltac unfold_M :=
  unfold mbind, M_bind, mret, M_ret, bind, ret, lift, call, call_err,
    defer, go in *.

Ltac find_failed :=
  eexists; unfold failed;
  repeat first [apply list_elem_of_here | apply list_elem_of_further].

Section Runs.

Context {A B : Type}.
Implicit Types (t evs : Trace) (e : error).

Lemma bind_Ok (m : M A) (k : A -> M B) t evs a :
  m t = (evs, Ok a) ->
  bind m k t = (evs ++ (k a (t ++ evs)).1, (k a (t ++ evs)).2).
Proof. unfold bind. intros ->. by destruct (k a (t ++ evs)). Qed.

Lemma bind_Err (m : M A) (k : A -> M B) t evs e :
  m t = (evs, Err e) -> bind m k t = (evs, Err e).
Proof. unfold bind. by intros ->. Qed.

End Runs.

Section Loops.

Context {A : Type} (body : A -> M unit).
Implicit Types (xs pre post : list A) (t evs : Trace) (e : error).

(** A loop that meets its first error after a prefix of good turns
    returns that error, whatever follows in the list. *)
Lemma range_stops pre x post t evs evs' e :
  range pre body t = (evs, Ok tt) ->
  body x (t ++ evs) = (evs', Err e) ->
  range (pre ++ x :: post) body t = (evs ++ evs', Err e).
Proof.
  revert t evs. induction pre as [|y pre IH]; intros t evs Hpre Hx.
  - injection Hpre as <-. rewrite app_nil_r in Hx. simpl.
    by rewrite (bind_Err _ _ _ _ _ Hx).
  - simpl in Hpre |- *. unfold bind in Hpre |- *.
    destruct (body y t) as [evs1 [[]|e1]]; [|done].
    destruct (range pre body (t ++ evs1)) as [evs2 r2] eqn:Hrest.
    injection Hpre as <- ->.
    rewrite (assoc_L (++)) in Hx.
    by rewrite (IH _ _ Hrest Hx), (assoc_L (++)).
Qed.

(** A loop that returns nil has run every turn, and every turn
    returned nil. *)
Lemma range_Ok_inv pre x post t evs :
  range (pre ++ x :: post) body t = (evs, Ok tt) ->
  exists evs1 evs2,
    range pre body t = (evs1, Ok tt) /\ body x (t ++ evs1) = (evs2, Ok tt).
Proof.
  revert t evs. induction pre as [|y pre IH]; intros t evs Hrun.
  - simpl in Hrun. unfold bind in Hrun.
    destruct (body x t) as [evs1 [[]|e1]] eqn:Hx; [|done].
    exists [], evs1. by rewrite app_nil_r.
  - simpl in Hrun. unfold bind in Hrun.
    destruct (body y t) as [evs1 [[]|e1]] eqn:Hy; [|done].
    destruct (range (pre ++ x :: post) body (t ++ evs1))
      as [evs2 [[]|e2]] eqn:Hrest; [|done].
    destruct (IH _ _ Hrest) as (evs3 & evs4 & Hpre & Hx).
    exists (evs1 ++ evs3), evs4. split.
    + simpl. by rewrite (bind_Ok _ _ _ _ _ Hy), Hpre.
    + by rewrite (assoc_L (++)).
Qed.

End Loops.

Section Handlers.

Context `{Env}.
Implicit Types (t evs : Trace) (e : error) (w : Worker).

(** Every handler loads the SDK configuration, then loops. *)
Lemma handler_of_unfold w event :
  handler_of w event
  = bind loadDefaultConfig
         (fun _ => range (events.Records event) (handle_record_of w)).
Proof. by destruct w. Qed.

Lemma loadDefaultConfig_Ok t :
  config_LoadDefaultConfig t = None ->
  loadDefaultConfig t = ([ok LoadDefaultConfig], Ok tt).
Proof. unfold loadDefaultConfig, call_err. by intros ->. Qed.

Lemma after_config {A : Type} (k : M A) t :
  config_LoadDefaultConfig t = None ->
  bind loadDefaultConfig (fun _ => k) t
  = (ok LoadDefaultConfig :: (k (t ++ [ok LoadDefaultConfig])).1,
     (k (t ++ [ok LoadDefaultConfig])).2).
Proof.
  intros Hcfg. by rewrite (bind_Ok _ _ _ _ _ (loadDefaultConfig_Ok t Hcfg)).
Qed.

(** A record whose object does not decode: the converter and the
    resizer stop right after the fetch. *)
Lemma Converter_decode_fails record body out e t :
  json_Unmarshal (events.Body record) = Ok body ->
  s3_GetObject t (Bucket body) (Key body) = Ok out ->
  image_Decode (out_Body out) = Err e ->
  Converter.handle_record record t
  = ([ok (S3GetObject (Bucket body) (Key body))], Err e).
Proof.
  intros Hjson Hget Hdec.
  unfold Converter.handle_record, Converter.getObject. unfold_M.
  by rewrite Hjson, app_nil_r, Hget, Hdec.
Qed.

Lemma Resizer_decode_fails record body out e t :
  json_Unmarshal (events.Body record) = Ok body ->
  s3_GetObject t (Bucket body) (Key body) = Ok out ->
  image_Decode (out_Body out) = Err e ->
  Resizer.handle_record record t
  = ([ok (S3GetObject (Bucket body) (Key body))], Err e).
Proof.
  intros Hjson Hget Hdec.
  unfold Resizer.handle_record, Resizer.getObject. unfold_M.
  by rewrite Hjson, app_nil_r, Hget, Hdec.
Qed.

(** The metadata extractor writes its temporary copy first; it stops
    at that write, at the open, or at the header decode, and never
    reaches the table. *)
Lemma Metadata_decode_fails record body out bs e t :
  json_Unmarshal (events.Body record) = Ok body ->
  s3_GetObject t (Bucket body) (Key body) = Ok out ->
  io_ReadAll (out_Body out) = Ok bs ->
  image_DecodeConfig bs = Err e ->
  exists evs e',
    Metadata.handle_record record t = (evs, Err e')
    /\ writes evs = []
    /\ (e' = e \/ exists c, failed c e' ∈ evs).
Proof.
  intros Hjson Hget Hbody Hdec.
  unfold Metadata.handle_record, Metadata.generateMetadata,
    Metadata.getObject. unfold_M.
  rewrite Hjson, app_nil_r, Hget, Hbody. simpl.
  rewrite !app_nil_r.
  destruct (os_WriteFile _ _ _) as [ew|] eqn:Hw.
  { eexists _, _. split; [done|]. split; [done|].
    right. find_failed. }
  simpl.
  destruct (os_Open _ _) as [eo|] eqn:Ho.
  { destruct (os_Remove _ _); eexists _, _; (split; [done|]);
      (split; [done|]); right; find_failed. }
  simpl. rewrite Hdec.
  destruct (os_Remove _ _); eexists _, _; (split; [done|]);
    (split; [done|]); by left.
Qed.

End Handlers.

(** ** The claims about [extractFilename] *)

Ltac by_decide := apply (bool_decide_unpack _); vm_compute; exact I.

(** C4. [extractFilename] returns the base name of its input with the
    directory and the extension stripped: a key [dir/stem.ext], or
    [stem.ext] alone, gives [stem], and a key without an extension,
    [dir/stem] or [stem], gives [stem]; so ["photos/aaa.jpg"],
    ["aaa.png"] and ["aaa"] all give ["aaa"]. *)
Theorem extractFilename_strips_directory_and_extension
        (dir stem ext : gostring) :
  "/"%char ∉ stem -> "."%char ∉ ext -> "/"%char ∉ ext ->
  Metadata.extractFilename (dir ++ "/"%char :: stem ++ "."%char :: ext) = stem
  /\ Metadata.extractFilename (stem ++ "."%char :: ext) = stem
  /\ (stem ≠ [] -> "."%char ∉ stem ->
      Metadata.extractFilename (dir ++ "/"%char :: stem) = stem
      /\ Metadata.extractFilename stem = stem)
  /\ Metadata.extractFilename (str "photos/aaa.jpg") = str "aaa"
  /\ Metadata.extractFilename (str "aaa.png") = str "aaa"
  /\ Metadata.extractFilename (str "aaa") = str "aaa".
Proof.
  intros Hstem Hdot Hsep.
  assert ("/"%char ∉ stem ++ "."%char :: ext) as Hname.
  { rewrite elem_of_app, elem_of_cons. intros [?|[?|?]]; done. }
  assert (stem ++ "."%char :: ext ≠ []) as Hne by (by destruct stem).
  unfold Metadata.extractFilename. cbv zeta.
  repeat split.
  - rewrite Base_after_dir, Ext_dot by done. apply TrimSuffix_app.
  - rewrite Base_plain, Ext_dot by done. apply TrimSuffix_app.
  - rewrite Base_after_dir, Ext_no_dot by done. apply TrimSuffix_nil.
  - rewrite Base_plain, Ext_no_dot by done. apply TrimSuffix_nil.
Qed.

Lemma extractFilename_strips_directory_and_extension_witness :
  Metadata.extractFilename (str "uploads" ++ "/"%char :: str "cat" ++ "."%char :: str "gif")
  = str "cat".
Proof.
  apply (extractFilename_strips_directory_and_extension
           (str "uploads") (str "cat") (str "gif"));
    by_decide.
Defined.

(** C9. The three copies of [extractFilename], in the metadata
    extractor, the converter and the resizer, return the same name on
    every input, so the three workers derive the same table key and the
    same storage paths from one source key. *)
Theorem extractFilename_copies_agree (input : gostring) :
  Metadata.extractFilename input = Converter.extractFilename input
  /\ Converter.extractFilename input = Resizer.extractFilename input
  /\ Metadata.extractFilename input = Resizer.extractFilename input.
Proof. repeat split. Qed.

(** The last element of a path holds no separator. *)
Lemma last_element_no_sep (path : gostring) (n : nat) :
  n <= length path ->
  (forall j c, n <= j -> path !! j = Some c -> c ≠ "/"%char) ->
  "/"%char ∉ filepath.last_element path n.
Proof.
  induction n as [|i IH]; intros Hlen Htail.
  - simpl. intros (j & Hj)%list_elem_of_lookup_1.
    apply (Htail j "/"%char); [lia|done|done].
  - rewrite last_element_S. destruct (path !! i) as [c|] eqn:Hc.
    + destruct (filepath.IsPathSeparator c) eqn:Hsep.
      * intros (j & Hj)%list_elem_of_lookup_1. rewrite lookup_drop in Hj.
        apply (Htail (S i + j)%nat "/"%char); [lia|done|done].
      * apply IH; [lia|]. intros j c' Hij Hj.
        destruct (decide (j = i)) as [->|]; [|apply (Htail j); [lia|done]].
        rewrite Hc in Hj. injection Hj as <-.
        by apply IsPathSeparator_false.
    + apply lookup_ge_None in Hc. lia.
Qed.

Lemma Base_no_sep (path : gostring) :
  filepath.Base path = ["/"%char] \/ "/"%char ∉ filepath.Base path.
Proof.
  destruct path as [|c path]; [right; by by_decide|].
  rewrite Base_nonempty by done. cbv zeta.
  set (p := filepath.strip_trailing _ _).
  pose proof (last_element_no_sep p (length p)) as Hno.
  destruct (filepath.last_element p (length p)); [by left|right].
  apply Hno; [done|]. intros j c' Hj Hlook. apply lookup_lt_Some in Hlook. lia.
Qed.

(** C10. [extractFilename] strips the final extension only: when the
    base name of a key is [stem.ext] with no dot in [ext], the result is
    [stem], dots of [stem] included (["aaa.tar.gz"] gives ["aaa.tar"]);
    when the base name starts with its only dot ([stem] is empty, as in
    [".config"]) the result is the empty string, and the converted path
    of every such key is ["converted/.jpg"]. *)
Theorem extractFilename_strips_final_extension_only (key stem ext : gostring) :
  filepath.Base key = stem ++ "."%char :: ext ->
  "."%char ∉ ext ->
  Metadata.extractFilename key = stem
  /\ Converter.extractFilename key = stem
  /\ (stem = [] ->
      Converter.ConvertedFolder ++ Converter.extractFilename key ++ str ".jpg"
      = str "converted/.jpg")
  /\ Metadata.extractFilename (str "aaa.tar.gz") = str "aaa.tar"
  /\ Metadata.extractFilename (str ".config") = str "".
Proof.
  intros Hbase Hdot.
  assert (Metadata.extractFilename key = stem) as Hname.
  { unfold Metadata.extractFilename. cbv zeta. rewrite Hbase.
    rewrite Ext_dot; [apply TrimSuffix_app|done|].
    destruct (Base_no_sep key) as [Hroot|Hno]; rewrite Hbase in *.
    - destruct stem as [|c [|c' stem]]; done.
    - intros Hin. apply Hno. rewrite elem_of_app, elem_of_cons. auto. }
  repeat split; try done.
  intros ->. change (Converter.extractFilename key) with (Metadata.extractFilename key).
  by rewrite Hname.
Qed.

Lemma extractFilename_strips_final_extension_only_witness :
  Metadata.extractFilename (str "backups/site.tar.gz") = str "site.tar"
  /\ Converter.ConvertedFolder ++ Converter.extractFilename (str "home/.profile")
       ++ str ".jpg" = str "converted/.jpg".
Proof.
  split.
  - apply (extractFilename_strips_final_extension_only
             (str "backups/site.tar.gz") (str "site.tar") (str "gz"));
      [reflexivity | by_decide].
  - apply (extractFilename_strips_final_extension_only
             (str "home/.profile") [] (str "profile"));
      [reflexivity | by_decide | reflexivity].
Defined.

(** ** The claims about the artifacts *)

Section Store.

Implicit Types (t : Trace) (before : gmap (gostring * gostring) bytes).

Lemma blob_store_snoc before t ev :
  blob_store before (t ++ [ev])
  = match ev with
    | {| ev_call := S3PutObject bucket key body; ev_err := None |} =>
        <[(bucket, key) := body]> (blob_store before t)
    | _ => blob_store before t
    end.
Proof. unfold blob_store. by rewrite foldl_app. Qed.

(** A key that is uploaded with success, and only ever with the same
    content, holds that content at the end. *)
Lemma blob_store_lookup before t bucket key body :
  ok (S3PutObject bucket key body) ∈ t ->
  (forall body', ok (S3PutObject bucket key body') ∈ t -> body' = body) ->
  blob_store before t !! (bucket, key) = Some body.
Proof.
  induction t as [|ev t IH] using rev_ind; intros Hin Hsame.
  - by apply elem_of_nil in Hin.
  - rewrite blob_store_snoc.
    assert (forall body', ok (S3PutObject bucket key body') ∈ t ->
                          body' = body) as Hsame'.
    { intros body' ?. apply Hsame. apply elem_of_app. by left. }
    destruct ev as [[| | b k j | | | | | |] [e|]];
      try (apply IH; [|done];
           apply elem_of_app in Hin as [?|Hin]; [done|];
           by apply list_elem_of_singleton in Hin).
    destruct (decide ((b, k) = (bucket, key))) as [[= -> ->]|Hne].
    + rewrite lookup_insert_eq. f_equal. apply Hsame.
      apply elem_of_app. right. by apply list_elem_of_singleton.
    + rewrite lookup_insert_ne by done.
      apply IH; [|done].
      apply elem_of_app in Hin as [?|Hin]; [done|].
      apply list_elem_of_singleton in Hin. unfold ok in Hin. congruence.
Qed.

End Store.

(** C7. A record the converter handles without error leaves exactly one
    upload: the JPEG encoding, at quality 100, of the decoded image, put
    at [converted/{DerivedName}.jpg], a path computed from the key of
    the message alone; whatever blob the store held at that path before
    is replaced by it. *)
Theorem Converter_writes_one_artifact `{Env} (record : events.SQSMessage)
        (t evs : Trace) :
  Converter.handle_record record t = (evs, Ok tt) ->
  exists body out img format jpegImg,
    let path :=
      str "converted/" ++ Converter.extractFilename (Key body) ++ str ".jpg" in
    json_Unmarshal (events.Body record) = Ok body
    /\ s3_GetObject t (Bucket body) (Key body) = Ok out
    /\ image_Decode (out_Body out) = Ok (img, format)
    /\ jpeg_Encode img {| Quality := 100 |} = Ok jpegImg
    /\ evs = [ok (S3GetObject (Bucket body) (Key body));
              ok (S3PutObject (Bucket body) path jpegImg)]
    /\ uploads evs = [ok (S3PutObject (Bucket body) path jpegImg)]
    /\ forall before,
        blob_store before evs !! (Bucket body, path) = Some jpegImg.
Proof.
  unfold Converter.handle_record, Converter.getObject, Converter.putObject,
    Converter.convertToJPEG. unfold_M.
  destruct (json_Unmarshal _) as [body|] eqn:Hjson; [|done].
  rewrite app_nil_r.
  destruct (s3_GetObject _ _ _) as [out|] eqn:Hget; [|done].
  destruct (image_Decode _) as [[img format]|] eqn:Hdec; [|done].
  destruct (jpeg_Encode _ _) as [jpegImg|] eqn:Henc; [|done].
  destruct (s3_PutObject _ _ _ _) as [|] eqn:Hput; [done|].
  simpl. intros [= <-].
  exists body, out, img, format, jpegImg. cbv zeta.
  repeat (split; [done|]). intros before.
  unfold blob_store. simpl. apply lookup_insert_eq.
Qed.

Lemma Converter_writes_one_artifact_witness :
  exists body out img format jpegImg,
    let path :=
      str "converted/" ++ Converter.extractFilename (Key body) ++ str ".jpg" in
    json_Unmarshal (Env := Demo.env)
                   (events.Body (Demo.message "photos/aaa.png")) = Ok body
    /\ s3_GetObject (Env := Demo.env) [] (Bucket body) (Key body) = Ok out
    /\ image_Decode (Env := Demo.env) (out_Body out) = Ok (img, format)
    /\ jpeg_Encode (Env := Demo.env) img {| Quality := 100 |} = Ok jpegImg
    /\ [ok (S3GetObject (str "pixel") (str "photos/aaa.png"));
        ok (S3PutObject (str "pixel") (str "converted/aaa.jpg")
                        (str "JPEG 640 q100"))]
       = [ok (S3GetObject (Bucket body) (Key body));
          ok (S3PutObject (Bucket body) path jpegImg)]
    /\ uploads [ok (S3GetObject (str "pixel") (str "photos/aaa.png"));
                ok (S3PutObject (str "pixel") (str "converted/aaa.jpg")
                                (str "JPEG 640 q100"))]
       = [ok (S3PutObject (Bucket body) path jpegImg)]
    /\ forall before,
        blob_store before
          [ok (S3GetObject (str "pixel") (str "photos/aaa.png"));
           ok (S3PutObject (str "pixel") (str "converted/aaa.jpg")
                           (str "JPEG 640 q100"))]
        !! (Bucket body, path) = Some jpegImg.
Proof.
  apply (Converter_writes_one_artifact (H := Demo.env)
           (Demo.message "photos/aaa.png") []).
  vm_compute. reflexivity.
Defined.

Section ResizerFacts.

Context `{Env} (body : messageBody) (img : Image).
Implicit Types (t : Trace) (task : Resizer.resizeTask).

Local Abbreviation encoded task :=
  (jpeg_Encode (resize_Resize (Resizer.Width task) 0 img Lanczos3)
               {| Quality := 100 |}).
Local Abbreviation path_of task :=
  (Resizer.ResizedFolder ++ Resizer.extractFilename (Key body) ++ str "/"
     ++ Resizer.SizeName task ++ str ".jpg").
Local Abbreviation upload_of task :=
  (ok (S3PutObject (Bucket body) (path_of task)
                   (match encoded task with Ok j => j | Err _ => [] end))).
Local Abbreviation spawn :=
  (fun task => go (Resizer.resize_goroutine body img task)).

(** One goroutine: resize, encode, upload; it stops at the first
    error. *)
Lemma resize_goroutine_run task t :
  Resizer.resize_goroutine body img task t
  = match encoded task with
    | Ok j =>
        match s3_PutObject t (Bucket body) (path_of task) j with
        | None => ([ok (S3PutObject (Bucket body) (path_of task) j)], Ok tt)
        | Some e =>
            ([failed (S3PutObject (Bucket body) (path_of task) j) e], Err e)
        end
    | Err e => ([], Err e)
    end.
Proof.
  unfold Resizer.resize_goroutine, Resizer.putObject, Resizer.convertToJPEG.
  unfold_M. destruct (encoded task); [|done].
  rewrite app_nil_r. by destruct (s3_PutObject _ _ _ _).
Qed.

(** Whatever happens inside the goroutines, the loop that starts
    them goes on and ends without an error. *)
Lemma goroutines_return_nil (tasks : list Resizer.resizeTask) t :
  (range tasks spawn t).2 = Ok tt.
Proof.
  revert t. induction tasks as [|task tasks IH]; intros t; [done|].
  simpl. unfold bind, go at 1.
  destruct (Resizer.resize_goroutine body img task t) as [evs r].
  specialize (IH (t ++ evs)).
  by destruct (range tasks _ (t ++ evs)).
Qed.

(** When every encoding succeeds and no call fails, the goroutines
    leave one successful upload each, in the order they ran. *)
Lemma goroutines_uploads (tasks : list Resizer.resizeTask) t :
  (forall task, task ∈ tasks -> exists j, encoded task = Ok j) ->
  Forall (fun ev => ev_err ev = None) (range tasks spawn t).1 ->
  (range tasks spawn t).1 = (fun task => upload_of task) <$> tasks.
Proof.
  revert t. induction tasks as [|task tasks IH]; intros t Henc Hok; [done|].
  simpl in Hok |- *. unfold bind, go at 1 in Hok. unfold bind, go at 1.
  rewrite resize_goroutine_run in Hok |- *.
  destruct (Henc task) as [j Hj]; [by left|]. rewrite Hj in Hok |- *.
  assert (forall task', task' ∈ tasks -> exists j', encoded task' = Ok j')
    as Henc' by (intros; apply Henc; by right).
  destruct (s3_PutObject _ _ _ _) as [e|].
  - destruct (range tasks _ _). simpl in Hok. by inversion Hok.
  - specialize (IH (t ++ [ok (S3PutObject (Bucket body) (path_of task) j)])
                   Henc').
    destruct (range tasks _ _) as [evs r]. simpl in Hok, IH |- *.
    inversion Hok; subst. by rewrite IH.
Qed.

End ResizerFacts.

(** The three sizes of one name go to three different paths. *)
Lemma resized_paths_differ (name : gostring) :
  NoDup [str "resized/" ++ name ++ str "/thumbnail.jpg";
         str "resized/" ++ name ++ str "/medium.jpg";
         str "resized/" ++ name ++ str "/large.jpg"].
Proof.
  assert (forall a b : gostring,
             a ≠ b -> str "resized/" ++ name ++ a ≠ str "resized/" ++ name ++ b)
    as Hne.
  { intros a b Hab Heq. by do 2 apply app_inv_head in Heq. }
  repeat constructor; rewrite ?elem_of_cons, ?elem_of_nil;
    intros Hin; repeat destruct Hin as [Hin|Hin]; try done;
    by apply Hne in Hin.
Qed.

(** Once the image is decoded the resizer's loop body returns nil. *)
Lemma Resizer_handle_record_after_decode `{Env} (record : events.SQSMessage)
      (body : messageBody) (out : GetObjectOutput) (img : Image)
      (format : gostring) (t : Trace) :
  json_Unmarshal (events.Body record) = Ok body ->
  s3_GetObject t (Bucket body) (Key body) = Ok out ->
  image_Decode (out_Body out) = Ok (img, format) ->
  Resizer.handle_record record t
  = (ok (S3GetObject (Bucket body) (Key body))
       :: (range (go_schedule Resizer.resizeTask Resizer.resizeTasks)
                 (fun task => go (Resizer.resize_goroutine body img task))
                 (t ++ [ok (S3GetObject (Bucket body) (Key body))])).1,
     Ok tt).
Proof.
  intros Hjson Hget Hdec.
  unfold Resizer.handle_record, Resizer.getObject.
  unfold mbind, M_bind, bind, lift, call.
  rewrite Hjson, app_nil_r, Hget, Hdec. rewrite app_nil_r.
  pose proof (goroutines_return_nil body img
                (go_schedule Resizer.resizeTask Resizer.resizeTasks)
                (t ++ [ok (S3GetObject (Bucket body) (Key body))])) as Hnil.
  destruct (range _ _ _) as [evs r]. simpl in Hnil |- *. by rewrite Hnil.
Qed.

(** C1 (what the code does).  The handler of the resizer returns nil
    for a batch of one message although the upload of the medium size
    failed: the failure stays inside its goroutine.  The two other
    sizes were uploaded. *)
Theorem Resizer_handler_hides_failed_upload :
  Resizer.handler (H := Demo.env) (Demo.batch ["photos/bbb.png"%string]) []
  = ([ok LoadDefaultConfig;
      ok (S3GetObject (str "pixel") (str "photos/bbb.png"));
      ok (S3PutObject (str "pixel") (str "resized/bbb/large.jpg")
                      (str "JPEG 1000 q100"));
      failed (S3PutObject (str "pixel") (str "resized/bbb/medium.jpg")
                          (str "JPEG 500 q100"))
             (str "RequestTimeout");
      ok (S3PutObject (str "pixel") (str "resized/bbb/thumbnail.jpg")
                      (str "JPEG 100 q100"))],
     Ok tt).
Proof. vm_compute. reflexivity. Qed.

(** X18. When every step succeeds.  A record the resizer handles with
    the three encodings and every call succeeding leaves exactly three
    uploads, one per task, in the order the goroutines ran: the images
    resized to widths 100, 500 and 1000, each JPEG-encoded at quality
    100, at [resized/{DerivedName}/thumbnail.jpg], [.../medium.jpg] and
    [.../large.jpg]; the three paths differ, and the store holds the
    three blobs afterwards. *)
Theorem Resizer_writes_three_artifacts `{Env} (record : events.SQSMessage)
        (body : messageBody) (out : GetObjectOutput) (img : Image)
        (format : gostring) (thumbnail medium large : bytes) (t : Trace) :
  (forall (A : Type) (l : list A), go_schedule A l ≡ₚ l) ->
  json_Unmarshal (events.Body record) = Ok body ->
  s3_GetObject t (Bucket body) (Key body) = Ok out ->
  image_Decode (out_Body out) = Ok (img, format) ->
  jpeg_Encode (resize_Resize 100 0 img Lanczos3) {| Quality := 100 |}
  = Ok thumbnail ->
  jpeg_Encode (resize_Resize 500 0 img Lanczos3) {| Quality := 100 |}
  = Ok medium ->
  jpeg_Encode (resize_Resize 1000 0 img Lanczos3) {| Quality := 100 |}
  = Ok large ->
  Forall (fun ev => ev_err ev = None) (Resizer.handle_record record t).1 ->
  let name := Resizer.extractFilename (Key body) in
  let p1 := str "resized/" ++ name ++ str "/thumbnail.jpg" in
  let p2 := str "resized/" ++ name ++ str "/medium.jpg" in
  let p3 := str "resized/" ++ name ++ str "/large.jpg" in
  exists ups,
    Resizer.handle_record record t
    = (ok (S3GetObject (Bucket body) (Key body)) :: ups, Ok tt)
    /\ ups ≡ₚ [ok (S3PutObject (Bucket body) p1 thumbnail);
               ok (S3PutObject (Bucket body) p2 medium);
               ok (S3PutObject (Bucket body) p3 large)]
    /\ NoDup [p1; p2; p3]
    /\ forall before,
        let store :=
          blob_store before (ok (S3GetObject (Bucket body) (Key body)) :: ups)
        in
        store !! (Bucket body, p1) = Some thumbnail
        /\ store !! (Bucket body, p2) = Some medium
        /\ store !! (Bucket body, p3) = Some large.
Proof.
  intros Hsched Hjson Hget Hdec H1 H2 H3 Hok name p1 p2 p3.
  rewrite (Resizer_handle_record_after_decode _ _ _ _ _ _ Hjson Hget Hdec)
    in Hok |- *.
  simpl in Hok. apply Forall_cons in Hok as [_ Hok].
  set (tasks := go_schedule Resizer.resizeTask Resizer.resizeTasks) in *.
  assert (tasks ≡ₚ Resizer.resizeTasks) as Hperm by apply Hsched.
  assert (forall task, task ∈ tasks ->
            exists j,
              jpeg_Encode (resize_Resize (Resizer.Width task) 0 img Lanczos3)
                          {| Quality := 100 |} = Ok j) as Henc.
  { intros task Htask. rewrite Hperm in Htask.
    unfold Resizer.resizeTasks in Htask.
    repeat (apply elem_of_cons in Htask as [->|Htask]); simpl; eauto.
    by apply elem_of_nil in Htask. }
  rewrite (goroutines_uploads body img tasks _ Henc Hok).
  eexists. split; [done|].
  assert (NoDup [p1; p2; p3]) as Hnodup by apply resized_paths_differ.
  assert ((fun task =>
             ok (S3PutObject (Bucket body)
                   (Resizer.ResizedFolder ++ Resizer.extractFilename (Key body)
                      ++ str "/" ++ Resizer.SizeName task ++ str ".jpg")
                   match
                     jpeg_Encode
                       (resize_Resize (Resizer.Width task) 0 img Lanczos3)
                       {| Quality := 100 |}
                   with
                   | Ok j => j
                   | Err _ => []
                   end)) <$> tasks
          ≡ₚ [ok (S3PutObject (Bucket body) p1 thumbnail);
              ok (S3PutObject (Bucket body) p2 medium);
              ok (S3PutObject (Bucket body) p3 large)]) as Hups.
  { rewrite Hperm. simpl. by rewrite H1, H2, H3. }
  split; [done|]. split; [done|].
  assert (p1 ≠ p2 /\ p1 ≠ p3 /\ p2 ≠ p3) as (Hn12 & Hn13 & Hn23).
  { apply NoDup_cons in Hnodup as [Hn1 Hnodup].
    apply NoDup_cons in Hnodup as [Hn2 _].
    rewrite !elem_of_cons in Hn1, Hn2. naive_solver. }
  clearbody p1 p2 p3.
  intros before store. subst store.
  repeat split.
  all: apply blob_store_lookup;
    [ apply elem_of_cons; right; rewrite Hups; rewrite !elem_of_cons; auto
    | intros j [Hin|Hin]%elem_of_cons; [done|];
      rewrite Hups in Hin; rewrite !elem_of_cons, elem_of_nil in Hin;
      unfold ok in Hin; destruct Hin as [Hin|[Hin|[Hin|[]]]]; congruence ].
Qed.

Lemma Resizer_writes_three_artifacts_witness :
  exists ups,
    Resizer.handle_record (H := Demo.env) (Demo.message "photos/aaa.png") []
    = (ok (S3GetObject (str "pixel") (str "photos/aaa.png")) :: ups, Ok tt)
    /\ ups ≡ₚ [ok (S3PutObject (str "pixel") (str "resized/aaa/thumbnail.jpg")
                              (str "JPEG 100 q100"));
               ok (S3PutObject (str "pixel") (str "resized/aaa/medium.jpg")
                              (str "JPEG 500 q100"));
               ok (S3PutObject (str "pixel") (str "resized/aaa/large.jpg")
                              (str "JPEG 1000 q100"))].
Proof.
  destruct (Resizer_writes_three_artifacts (H := Demo.env)
              (Demo.message "photos/aaa.png") (Demo.uploaded "photos/aaa.png")
              {| out_Body := Demo.stream Demo.png |} (640%N, Demo.png) (str "png")
              (str "JPEG 100 q100") (str "JPEG 500 q100")
              (str "JPEG 1000 q100") [])
    as (ups & Hrun & Hperm & _).
  - intros A l. simpl. symmetry. apply Permutation_rev.
  - vm_compute; reflexivity.
  - vm_compute; reflexivity.
  - vm_compute; reflexivity.
  - vm_compute; reflexivity.
  - vm_compute; reflexivity.
  - vm_compute; reflexivity.
  - vm_compute. repeat constructor.
  - exists ups. split; [exact Hrun | exact Hperm].
Defined.

(** ** The claim about the notifier *)

(** The loop of the notifier publishes the payloads of a prefix of the
    records, in order; all of them when it ends without error. *)
Lemma Notifier_loop `{Env} (records : list events.S3EventRecord)
      (t evs : Trace) (r : result unit) :
  range records Notifier.handle_record t = (evs, r) ->
  exists n msgs,
    n <= length records
    /\ Forall2 (fun record m => json_Marshal (payload_of record) = Ok m)
               (take n records) msgs
    /\ ev_call <$> evs
       = SnsPublish Notifier.newImageUploadedTopicArn <$> msgs
    /\ (r = Ok tt ->
        n = length records /\ Forall (fun ev => ev_err ev = None) evs)
    /\ (forall ev e, ev ∈ evs -> ev_err ev = Some e -> r = Err e).
Proof.
  revert t evs r.
  induction records as [|record records IH]; intros t evs r Hrun.
  - injection Hrun as <- <-. exists 0, [].
    split; [done|]. split; [by constructor|]. split; [done|].
    split; [done|]. intros ev e Hin. by apply elem_of_nil in Hin.
  - simpl in Hrun. unfold bind at 1 in Hrun.
    unfold Notifier.handle_record in Hrun. unfold_M.
    fold (payload_of record) in Hrun.
    destruct (json_Marshal (payload_of record)) as [m|em] eqn:Hm.
    + destruct (sns_Publish _ _ m) as [resp|ep].
      * simpl in Hrun.
        destruct (range records _ _) as [evs' r'] eqn:Hrest.
        injection Hrun as <- <-.
        destruct (IH _ _ _ Hrest)
          as (n & msgs & Hn & Hsent & Hcalls & Hnil & Hfail).
        exists (S n), (m :: msgs).
        split; [simpl; lia|]. split; [by constructor|].
        split; [by rewrite !fmap_cons, Hcalls|].
        split.
        -- intros Hr. destruct (Hnil Hr) as [-> Hall].
           split; [done|]. by constructor.
        -- intros ev e [->|Hin]%elem_of_cons Herr; [done|]. by eapply Hfail.
      * injection Hrun as <- <-. exists 1, [m].
        split; [simpl; lia|].
        split; [simpl; rewrite take_0; by repeat constructor|].
        split; [done|]. split; [done|].
        intros ev e Hin%list_elem_of_singleton Herr. subst ev.
        simpl in Herr. by injection Herr as ->.
    + injection Hrun as <- <-. exists 0, [].
      split; [simpl; lia|]. split; [by constructor|]. split; [done|].
      split; [done|]. intros ev e Hin. by apply elem_of_nil in Hin.
Qed.

(** C8. In one invocation the notifier publishes, to the fan-out
    topic, the JSON payloads [{bucket, key}] of the first [n] records
    of its event, one message per record and in the order of the
    records: none is skipped before a later one is published and none
    is published twice.  When the handler returns nil, [n] is the
    number of records and every publication succeeded.  When any call,
    a publication in particular, fails, the handler returns that error
    (and stops there). *)
Theorem Notifier_publishes_each_record_once `{Env} (s3Event : events.S3Event)
        (t evs : Trace) (r : result unit) :
  Notifier.handler s3Event t = (evs, r) ->
  exists n msgs,
    n <= length (events.S3Records s3Event)
    /\ Forall2 (fun record m => json_Marshal (payload_of record) = Ok m)
               (take n (events.S3Records s3Event)) msgs
    /\ published evs
       = (fun m => (Notifier.newImageUploadedTopicArn, m)) <$> msgs
    /\ (r = Ok tt ->
        n = length (events.S3Records s3Event)
        /\ Forall (fun ev => ev_err ev = None) evs)
    /\ (forall ev e, ev ∈ evs -> ev_err ev = Some e -> r = Err e).
Proof.
  unfold Notifier.handler, loadDefaultConfig.
  unfold mbind, M_bind, bind, call_err.
  destruct (config_LoadDefaultConfig t) as [ec|].
  - intros [= <- <-]. exists 0, [].
    split; [lia|]. split; [by constructor|]. split; [done|]. split; [done|].
    intros ev e Hin%list_elem_of_singleton Herr. subst ev.
    simpl in Herr. by injection Herr as ->.
  - destruct (range _ _ _) as [evs' r'] eqn:Hloop. intros [= <- <-].
    destruct (Notifier_loop _ _ _ _ Hloop)
      as (n & msgs & Hn & Hsent & Hcalls & Hnil & Hfail).
    exists n, msgs. split; [done|]. split; [done|]. split; [|split].
    + simpl. clear -Hcalls. revert msgs Hcalls.
      induction evs' as [|ev evs' IH]; intros [|m msgs] Hcalls; try done.
      rewrite !fmap_cons in Hcalls. injection Hcalls as Hcall Hcalls.
      unfold published in *. simpl. rewrite Hcall. simpl.
      f_equal. by apply IH.
    + intros Hr. destruct (Hnil Hr) as [-> Hall].
      split; [done|]. by constructor.
    + intros ev e [->|Hin]%elem_of_cons Herr; [done|]. by eapply Hfail.
Qed.

Lemma Notifier_publishes_each_record_once_witness :
  exists n msgs,
    n <= 3
    /\ Forall2 (fun record m =>
                  json_Marshal (Env := Demo.env) (payload_of record) = Ok m)
               (take n [Demo.notification "photos/aaa.png";
                        Demo.notification "photos/bad.png";
                        Demo.notification "photos/bbb.png"]) msgs
    /\ published
         [ok LoadDefaultConfig;
          ok (SnsPublish Notifier.newImageUploadedTopicArn
                         (Demo.marshal (Demo.uploaded "photos/aaa.png")));
          failed (SnsPublish Notifier.newImageUploadedTopicArn
                             (Demo.marshal (Demo.uploaded "photos/bad.png")))
                 (str "Throttled")]
       = (fun m => (Notifier.newImageUploadedTopicArn, m)) <$> msgs
    /\ (Err (str "Throttled") = Ok tt ->
        n = 3
        /\ Forall (fun ev => ev_err ev = None)
             [ok LoadDefaultConfig;
              ok (SnsPublish Notifier.newImageUploadedTopicArn
                             (Demo.marshal (Demo.uploaded "photos/aaa.png")));
              failed (SnsPublish Notifier.newImageUploadedTopicArn
                                 (Demo.marshal (Demo.uploaded "photos/bad.png")))
                     (str "Throttled")])
    /\ (forall ev e,
          ev ∈ [ok LoadDefaultConfig;
                ok (SnsPublish Notifier.newImageUploadedTopicArn
                               (Demo.marshal (Demo.uploaded "photos/aaa.png")));
                failed (SnsPublish Notifier.newImageUploadedTopicArn
                                   (Demo.marshal (Demo.uploaded "photos/bad.png")))
                       (str "Throttled")] ->
          ev_err ev = Some e -> Err (str "Throttled") = Err (A := unit) e).
Proof.
  apply (Notifier_publishes_each_record_once (H := Demo.env)
           {| events.S3Records :=
               [Demo.notification "photos/aaa.png";
                Demo.notification "photos/bad.png";
                Demo.notification "photos/bbb.png"] |} []).
  vm_compute. reflexivity.
Defined.

(** ** More about [extractFilename] *)

Section NameFacts.

Implicit Types (key path s suffix : gostring).

(** [TrimSuffix] returns a prefix of its argument. *)
Lemma TrimSuffix_prefix s suffix : strings.TrimSuffix s suffix `prefix_of` s.
Proof.
  unfold strings.TrimSuffix. destruct (strings.HasSuffix s suffix); [|done].
  apply prefix_take.
Qed.

(** [TrimSuffix] of a suffix that is there: the two parts give the
    string back. *)
Lemma TrimSuffix_drop s i : strings.TrimSuffix s (drop i s) ++ drop i s = s.
Proof.
  pose proof (TrimSuffix_app (take i s) (drop i s)) as Htrim.
  rewrite take_drop in Htrim. rewrite Htrim. apply take_drop.
Qed.

(** The extension found by the backward scan: nothing, or the end of
    the path from its last dot on. *)
Lemma Ext_loop_shape path n :
  n <= length path ->
  filepath.Ext_loop path n = []
  \/ exists i, i < n /\ path !! i = Some "."%char
               /\ filepath.Ext_loop path n = drop i path
               /\ forall j, i < j < n -> path !! j ≠ Some "."%char.
Proof.
  induction n as [|n IH]; intros Hn; [by left|].
  rewrite Ext_loop_S. destruct (path !! n) as [c|] eqn:Hc; [|by left].
  destruct (filepath.IsPathSeparator c); [by left|].
  destruct (decide (c = "."%char)) as [->|Hdot].
  - rewrite bool_decide_true by done. right. exists n.
    split; [lia|]. split; [done|]. split; [done|]. intros j ?. lia.
  - rewrite bool_decide_false by done.
    destruct IH as [Hnil|(i & Hi & Hdoti & Hext & Hlast)]; [lia|by left|].
    right. exists i. split; [lia|]. split; [done|]. split; [done|].
    intros j Hj. destruct (decide (j = n)) as [->|]; [|apply Hlast; lia].
    rewrite Hc. congruence.
Qed.

Lemma Ext_suffix path : exists i, filepath.Ext path = drop i path.
Proof.
  destruct (Ext_loop_shape path (length path)) as [Hnil|(i & _ & _ & Hext & _)];
    [done| |by exists i].
  exists (length path). unfold filepath.Ext. by rewrite Hnil, drop_all.
Qed.

(** The name has no separator, unless the base is the root. *)
Lemma extractFilename_no_sep key :
  filepath.Base key ≠ ["/"%char] -> "/"%char ∉ Metadata.extractFilename key.
Proof.
  intros Hroot Hin. destruct (Base_no_sep key) as [?|Hno]; [done|].
  apply Hno. unfold Metadata.extractFilename in Hin. cbv zeta in Hin.
  by eapply elem_of_prefix; [|apply TrimSuffix_prefix].
Qed.

End NameFacts.

(** X1. The name and the extension of a key give its base name back:
    [extractFilename key ++ filepath.Ext (filepath.Base key)] is
    [filepath.Base key], and the extension that was cut off is empty or
    is a dot followed by bytes among which there is no dot. *)
Theorem extractFilename_splits_base (key : gostring) :
  Metadata.extractFilename key ++ filepath.Ext (filepath.Base key)
  = filepath.Base key
  /\ (filepath.Ext (filepath.Base key) = []
      \/ exists ext, filepath.Ext (filepath.Base key) = "."%char :: ext
                     /\ "."%char ∉ ext).
Proof.
  split.
  - unfold Metadata.extractFilename. cbv zeta.
    destruct (Ext_suffix (filepath.Base key)) as [i ->]. apply TrimSuffix_drop.
  - set (base := filepath.Base key).
    destruct (Ext_loop_shape base (length base))
      as [Hnil|(i & Hi & Hdot & Hext & Hlast)]; [done|by left|].
    right. exists (drop (S i) base). split.
    + unfold filepath.Ext. rewrite Hext. by apply drop_S.
    + intros (j & Hj)%list_elem_of_lookup_1. rewrite lookup_drop in Hj.
      apply (Hlast (S i + j)); [|done].
      apply lookup_lt_Some in Hj. lia.
Qed.

(** A path made of separators is stripped to nothing. *)
Lemma strip_trailing_all (turns : nat) (path : gostring) :
  Forall (fun c => c = "/"%char) path -> length path <= turns ->
  filepath.strip_trailing turns path = [].
Proof.
  revert path. induction turns as [|turns IH]; intros path Hall Hlen.
  - destruct path; [done|simpl in Hlen; lia].
  - destruct path as [|c0 rest] using rev_ind; [done|]. clear IHrest.
    apply Forall_app in Hall as [Hall Hc]. rewrite Forall_singleton in Hc.
    subst c0. rewrite length_app in Hlen. simpl in Hlen.
    unfold filepath.strip_trailing; fold filepath.strip_trailing.
    rewrite length_app. simpl length.
    replace (length rest + 1 - 1) with (length rest) by lia.
    rewrite list_lookup_middle by done.
    assert (filepath.IsPathSeparator "/" = true) as -> by done.
    rewrite take_app_length. apply IH; [done|lia].
Qed.

(** What the first loop of [Base] leaves: nothing, when the path was
    made of separators, or a path that ends in another byte. *)
Lemma strip_trailing_shape (turns : nat) (path : gostring) :
  length path <= turns ->
  (filepath.strip_trailing turns path = []
   /\ Forall (fun c => c = "/"%char) path)
  \/ exists q c, filepath.strip_trailing turns path = q ++ [c]
                 /\ c ≠ "/"%char.
Proof.
  revert path. induction turns as [|turns IH]; intros path Hlen.
  - destruct path; [by left|simpl in Hlen; lia].
  - destruct path as [|c0 rest] using rev_ind; [by left|]. clear IHrest.
    rewrite length_app in Hlen. simpl in Hlen.
    unfold filepath.strip_trailing; fold filepath.strip_trailing.
    rewrite length_app. simpl length.
    replace (length rest + 1 - 1) with (length rest) by lia.
    rewrite list_lookup_middle by done.
    destruct (filepath.IsPathSeparator c0) eqn:Hsep.
    + rewrite take_app_length. apply IsPathSeparator_true in Hsep as ->.
      destruct (IH rest) as [[Hnil Hall]|Hlast]; [lia| |by right].
      left. split; [done|]. apply Forall_app. by split; [|constructor].
    + right. exists rest, c0. split; [done|]. by apply IsPathSeparator_false.
Qed.

(** The last byte of a path that does not end in a separator is in its
    last element. *)
Lemma last_element_keeps_last (q : gostring) (c : ascii) (n : nat) :
  c ≠ "/"%char -> n <= S (length q) ->
  c ∈ filepath.last_element (q ++ [c]) n.
Proof.
  intros Hc. induction n as [|i IH]; intros Hn.
  - simpl. apply elem_of_app. right. by left.
  - rewrite last_element_S.
    destruct (decide (i = length q)) as [->|Hi].
    + rewrite list_lookup_middle by done.
      apply IsPathSeparator_false in Hc as ->. apply IH. lia.
    + rewrite lookup_app_l by lia.
      destruct (q !! i) as [c'|] eqn:Hq;
        [|apply lookup_ge_None in Hq; lia].
      destruct (filepath.IsPathSeparator c'); [|apply IH; lia].
      rewrite drop_app_le by lia. apply elem_of_app. right. by left.
Qed.

(** The base name is the root exactly for the keys made of
    separators. *)
Lemma Base_root_iff (key : gostring) :
  filepath.Base key = ["/"%char]
  <-> key ≠ [] /\ Forall (fun c => c = "/"%char) key.
Proof.
  split.
  - intros Hbase. assert (key ≠ []) as Hne by (by intros ->).
    split; [done|]. rewrite Base_nonempty in Hbase by done.
    cbv zeta in Hbase.
    destruct (strip_trailing_shape (length key) key)
      as [[_ Hall]|(q & c & Hstrip & Hc)]; [done|done|].
    rewrite Hstrip in Hbase.
    pose proof (last_element_keeps_last q c (length (q ++ [c])) Hc) as Hin.
    rewrite length_app in Hin. simpl in Hin.
    specialize (Hin ltac:(lia)).
    rewrite length_app in Hbase. simpl in Hbase.
    destruct (filepath.last_element (q ++ [c]) (length q + 1)) as [|c1 l];
      [by apply elem_of_nil in Hin|].
    rewrite Hbase in Hin. by apply list_elem_of_singleton in Hin.
  - intros [Hne Hall]. rewrite Base_nonempty by done. cbv zeta.
    by rewrite strip_trailing_all.
Qed.

(** X2. The name never holds a path separator, except for a key made
    of separators only, whose name is ["/"]: the name is ["/"] exactly
    when the key is not empty and made of separators, and the name of
    every other key holds no separator.  The name is never longer than
    the base name of the key. *)
Theorem extractFilename_has_no_separator (key : gostring) :
  (Metadata.extractFilename key = ["/"%char]
   <-> key ≠ [] /\ Forall (fun c => c = "/"%char) key)
  /\ (~ (key ≠ [] /\ Forall (fun c => c = "/"%char) key) ->
      "/"%char ∉ Metadata.extractFilename key)
  /\ length (Metadata.extractFilename key) <= length (filepath.Base key).
Proof.
  assert (Metadata.extractFilename key = ["/"%char]
          <-> filepath.Base key = ["/"%char]) as Hroot.
  { split.
    - intros Hname.
      destruct (decide (filepath.Base key = ["/"%char])) as [|Hne]; [done|].
      exfalso. apply (extractFilename_no_sep key Hne).
      rewrite Hname. by left.
    - intros Hbase. unfold Metadata.extractFilename. cbv zeta.
      by rewrite Hbase. }
  split; [|split].
  - by rewrite Hroot, Base_root_iff.
  - intros Hnot. apply extractFilename_no_sep. by rewrite Base_root_iff.
  - apply prefix_length, TrimSuffix_prefix.
Qed.

(** X3. A trailing separator does not change the name: the key of an
    S3 "folder", [photos/], has the name of [photos]. *)
Theorem extractFilename_ignores_trailing_separator (key : gostring) :
  key ≠ [] ->
  Metadata.extractFilename (key ++ ["/"%char]) = Metadata.extractFilename key.
Proof.
  intros Hne. unfold Metadata.extractFilename. cbv zeta.
  assert (filepath.Base (key ++ ["/"%char]) = filepath.Base key) as ->; [|done].
  rewrite !Base_nonempty by (by destruct key). cbv zeta.
  assert (filepath.strip_trailing (length (key ++ ["/"%char]))
                                  (key ++ ["/"%char])
          = filepath.strip_trailing (length key) key) as ->; [|done].
  rewrite length_app. simpl length.
  replace (length key + 1) with (S (length key)) by lia.
  unfold filepath.strip_trailing at 1; fold filepath.strip_trailing.
  rewrite length_app. simpl length.
  replace (length key + 1 - 1) with (length key) by lia.
  rewrite list_lookup_middle by done.
  assert (filepath.IsPathSeparator "/" = true) as -> by done.
  by rewrite take_app_length.
Qed.

Lemma extractFilename_ignores_trailing_separator_witness :
  Metadata.extractFilename (str "photos/2024" ++ ["/"%char])
  = Metadata.extractFilename (str "photos/2024").
Proof.
  apply (extractFilename_ignores_trailing_separator (str "photos/2024")).
  discriminate.
Defined.

(** X4. The artifacts keep the names apart or not as follows.  The
    converted artifact of a key has the name of the key, so converting
    an artifact again writes to its own path; the three resized
    artifacts of any key have the names of their sizes, [thumbnail],
    [medium] and [large], whatever the key was. *)
Theorem artifact_paths_have_names (key : gostring) :
  filepath.Base key ≠ ["/"%char] ->
  Converter.extractFilename
    (Converter.ConvertedFolder ++ Converter.extractFilename key ++ str ".jpg")
  = Converter.extractFilename key
  /\ forall task,
      task ∈ Resizer.resizeTasks ->
      Resizer.extractFilename
        (Resizer.ResizedFolder ++ Resizer.extractFilename key ++ str "/"
           ++ Resizer.SizeName task ++ str ".jpg")
      = Resizer.SizeName task.
Proof.
  intros Hroot. split.
  - pose proof (extractFilename_no_sep key Hroot) as Hno.
    change (Converter.extractFilename key) with (Metadata.extractFilename key).
    set (name := Metadata.extractFilename key) in *.
    unfold Converter.extractFilename. cbv zeta.
    change (Converter.ConvertedFolder ++ name ++ str ".jpg")
      with (str "converted" ++ "/"%char :: name ++ "."%char :: str "jpg").
    rewrite Base_after_dir.
    + rewrite Ext_dot by by_decide. apply TrimSuffix_app.
    + by destruct name.
    + rewrite elem_of_app. intros [?|Hin]; [done|]. revert Hin. by_decide.
  - intros task Htask.
    set (name := Resizer.extractFilename key).
    unfold Resizer.extractFilename. cbv zeta.
    replace (Resizer.ResizedFolder ++ name ++ str "/"
               ++ Resizer.SizeName task ++ str ".jpg")
      with ((Resizer.ResizedFolder ++ name) ++ "/"%char
              :: Resizer.SizeName task ++ "."%char :: str "jpg")
      by (by rewrite <- (assoc_L (++))).
    unfold Resizer.resizeTasks in Htask.
    repeat (apply elem_of_cons in Htask as [->|Htask]);
      try (by apply elem_of_nil in Htask); simpl Resizer.SizeName.
    all: rewrite Base_after_dir; [|done|by_decide].
    all: rewrite Ext_dot by by_decide; apply TrimSuffix_app.
Qed.

Lemma artifact_paths_have_names_witness :
  Converter.extractFilename
    (Converter.ConvertedFolder
       ++ Converter.extractFilename (str "photos/aaa.png") ++ str ".jpg")
  = Converter.extractFilename (str "photos/aaa.png").
Proof.
  destruct (artifact_paths_have_names (str "photos/aaa.png")) as [Hname _];
    [by_decide | exact Hname].
Defined.

(** ** More about the handlers *)

Section StoreFacts.

Implicit Types (t : Trace) (before : gmap (gostring * gostring) bytes).

Lemma blob_store_app before t t' :
  blob_store before (t ++ t') = blob_store (blob_store before t) t'.
Proof. unfold blob_store. apply foldl_app. Qed.

(** A trace without a successful upload to a key leaves that key as it
    was. *)
Lemma blob_store_untouched before t bucket key :
  (forall body, ok (S3PutObject bucket key body) ∉ t) ->
  blob_store before t !! (bucket, key) = before !! (bucket, key).
Proof.
  induction t as [|ev t IH] using rev_ind; intros Hnone; [done|].
  rewrite blob_store_snoc.
  assert (forall body, ok (S3PutObject bucket key body) ∉ t) as Hnone'.
  { intros body Hin. apply (Hnone body), elem_of_app. by left. }
  destruct ev as [[| | b k j | | | | | |] [e|]]; try by apply IH.
  destruct (decide ((b, k) = (bucket, key))) as [[= -> ->]|Hne].
  - exfalso. apply (Hnone j), elem_of_app. right.
    by apply list_elem_of_singleton.
  - rewrite lookup_insert_ne by done. by apply IH.
Qed.

(** A trace without a successful upload leaves the store as it was. *)
Lemma blob_store_no_upload before t :
  Forall (fun ev => is_upload ev = true -> ev_err ev <> None) t ->
  blob_store before t = before.
Proof.
  induction t as [|ev t IH] using rev_ind; intros Hall; [done|].
  apply Forall_app in Hall as [Hall Hev]. rewrite Forall_singleton in Hev.
  rewrite blob_store_snoc.
  destruct ev as [[| | b k j | | | | | |] [e|]]; try by apply IH.
  exfalso. by apply Hev.
Qed.

End StoreFacts.

Section LoopFacts.

Context {A : Type} (body : A -> M unit) (P : Event -> Prop).

(** What holds of the events of every turn holds of the events of the
    loop. *)
Lemma range_Forall (xs : list A) (t : Trace) :
  (forall x t', Forall P (body x t').1) -> Forall P (range xs body t).1.
Proof.
  intros Hbody. revert t. induction xs as [|x xs IH]; intros t; [by constructor|].
  simpl. unfold bind. specialize (Hbody x t).
  destruct (body x t) as [evs [[]|e]]; [|done].
  specialize (IH (t ++ evs)). destruct (range xs body (t ++ evs)).
  simpl in *. by apply Forall_app.
Qed.

End LoopFacts.

(** X5. Every handler loads the SDK configuration before anything else.
    When that fails the handler returns the error and makes no other
    call, whatever the event holds; when it succeeds and the event has
    no record, the handler returns nil and makes no other call. *)
Theorem handlers_load_configuration_first `{Env} (w : Worker)
        (event : events.SQSEvent) (s3Event : events.S3Event) (t : Trace) :
  let first := {| ev_call := LoadDefaultConfig;
                  ev_err := config_LoadDefaultConfig t |} in
  (exists evs, (handler_of w event t).1 = first :: evs)
  /\ (exists evs, (Notifier.handler s3Event t).1 = first :: evs)
  /\ (forall e, config_LoadDefaultConfig t = Some e ->
        handler_of w event t = ([first], Err e)
        /\ Notifier.handler s3Event t = ([first], Err e))
  /\ (config_LoadDefaultConfig t = None ->
        (events.Records event = [] -> handler_of w event t = ([first], Ok tt))
        /\ (events.S3Records s3Event = [] ->
            Notifier.handler s3Event t = ([first], Ok tt))).
Proof.
  intros first. subst first. rewrite handler_of_unfold.
  unfold Notifier.handler, loadDefaultConfig.
  unfold mbind, M_bind, bind, call_err.
  destruct (config_LoadDefaultConfig t) as [e|].
  - split; [by eexists|]. split; [by eexists|]. split; [|done].
    by intros e' [= <-].
  - destruct (range (events.Records event) _ _) as [evs r] eqn:Hw.
    destruct (range (events.S3Records s3Event) _ _) as [evs' r'] eqn:Hn.
    split; [by eexists|]. split; [by eexists|]. split; [done|].
    intros _. split; intros Hnil; rewrite Hnil in *; simpl in *.
    + by injection Hw as <- <-.
    + by injection Hn as <- <-.
Qed.

(** X6. A message that cannot be read makes no write.  When the body of
    a record is not the JSON of a message, each worker returns the
    parse error without any call; when the object cannot be fetched,
    each worker returns that error after the one [GetObject] call; and
    when the metadata extractor, which reads the body of the object to
    the end with [io.ReadAll], meets a read error, it returns that
    error after the one [GetObject] call. *)
Theorem unreadable_message_makes_no_write `{Env} (w : Worker)
        (record : events.SQSMessage) (t : Trace) :
  (forall e,
      json_Unmarshal (events.Body record) = Err e ->
      handle_record_of w record t = ([], Err e))
  /\ (forall body e,
        json_Unmarshal (events.Body record) = Ok body ->
        s3_GetObject t (Bucket body) (Key body) = Err e ->
        handle_record_of w record t
        = ([failed (S3GetObject (Bucket body) (Key body)) e], Err e))
  /\ (forall body out e,
        json_Unmarshal (events.Body record) = Ok body ->
        s3_GetObject t (Bucket body) (Key body) = Ok out ->
        io_ReadAll (out_Body out) = Err e ->
        Metadata.handle_record record t
        = ([ok (S3GetObject (Bucket body) (Key body))], Err e)).
Proof.
  split; [|split].
  - intros e Hjson. destruct w; simpl;
      unfold Metadata.handle_record, Converter.handle_record,
        Resizer.handle_record; unfold_M; by rewrite Hjson.
  - intros body e Hjson Hget. destruct w; simpl;
      unfold Metadata.handle_record, Metadata.generateMetadata,
        Metadata.getObject, Converter.handle_record, Converter.getObject,
        Resizer.handle_record, Resizer.getObject; unfold_M;
      by rewrite Hjson, app_nil_r, Hget.
  - intros body out e Hjson Hget Hbody.
    unfold Metadata.handle_record, Metadata.generateMetadata,
      Metadata.getObject; unfold_M.
    by rewrite Hjson, app_nil_r, Hget, Hbody.
Qed.

Lemma unreadable_message_makes_no_write_witness :
  handle_record_of (H := Demo.env) ResizerWorker
    (Demo.message "photos/gone.png") []
  = ([failed (S3GetObject (str "pixel") (str "photos/gone.png"))
             (str "NoSuchKey")],
     Err (str "NoSuchKey")).
Proof.
  destruct (unreadable_message_makes_no_write (H := Demo.env) ResizerWorker
              (Demo.message "photos/gone.png") []) as (_ & Hfetch & _).
  apply (Hfetch (Demo.uploaded "photos/gone.png") (str "NoSuchKey"));
    vm_compute; reflexivity.
Defined.

(** What a run of the converter's loop body can be. *)
Lemma Converter_handle_record_run `{Env} (record : events.SQSMessage)
      (t evs : Trace) (r : result unit) :
  Converter.handle_record record t = (evs, r) ->
  (exists e, r = Err e /\ length evs <= 1 /\ uploads evs = [])
  \/ exists body out img format jpegImg,
      let get := ok (S3GetObject (Bucket body) (Key body)) in
      let put :=
        S3PutObject (Bucket body)
          (Converter.ConvertedFolder ++ Converter.extractFilename (Key body)
             ++ str ".jpg") jpegImg in
      json_Unmarshal (events.Body record) = Ok body
      /\ s3_GetObject t (Bucket body) (Key body) = Ok out
      /\ image_Decode (out_Body out) = Ok (img, format)
      /\ jpeg_Encode img {| Quality := 100 |} = Ok jpegImg
      /\ ((evs = [get; ok put] /\ r = Ok tt)
          \/ exists e, evs = [get; failed put e] /\ r = Err e).
Proof.
  unfold Converter.handle_record, Converter.getObject, Converter.putObject,
    Converter.convertToJPEG. unfold_M.
  destruct (json_Unmarshal _) as [body|] eqn:Hjson;
    [|intros [= <- <-]; left; eexists; split; [done|]; split; [simpl; lia|done]].
  rewrite app_nil_r.
  destruct (s3_GetObject _ _ _) as [out|] eqn:Hget;
    [|intros [= <- <-]; left; eexists; split; [done|]; split; [simpl; lia|done]].
  destruct (image_Decode _) as [[img format]|] eqn:Hdec;
    [|intros [= <- <-]; left; eexists; split; [done|]; split; [simpl; lia|done]].
  destruct (jpeg_Encode _ _) as [jpegImg|] eqn:Henc;
    [|intros [= <- <-]; left; eexists; split; [done|]; split; [simpl; lia|done]].
  destruct (s3_PutObject _ _ _ _) as [e|] eqn:Hput; simpl; intros [= <- <-];
    right; exists body, out, img, format, jpegImg; cbv zeta;
    (repeat (split; [done|])); [right; by eexists | by left].
Qed.

(** X7. A record the converter fails on leaves the store as it was.
    The upload is the last step: when the handling of a record returns
    an error, at most one upload was attempted, it is the call that
    failed, and no blob of the store has changed. *)
Theorem Converter_failure_leaves_store_unchanged `{Env}
        (record : events.SQSMessage) (t evs : Trace) (e : error) :
  Converter.handle_record record t = (evs, Err e) ->
  (forall before, blob_store before evs = before)
  /\ length (uploads evs) <= 1
  /\ (forall ev, ev ∈ uploads evs -> ev_err ev = Some e).
Proof.
  intros Hrun.
  destruct (Converter_handle_record_run _ _ _ _ Hrun)
    as [(e' & _ & Hlen & Hups)
       |(body & out & img & format & jpegImg & _ & _ & _ & _ & Hcase)].
  - split; [|split].
    + intros before. apply blob_store_no_upload.
      apply Forall_forall. intros ev Hin Hup.
      assert (ev ∈ uploads evs) as Habs
          by (by apply list_elem_of_filter).
      rewrite Hups in Habs. by apply elem_of_nil in Habs.
    + rewrite Hups. simpl. lia.
    + intros ev Hin. rewrite Hups in Hin. by apply elem_of_nil in Hin.
  - cbv zeta in Hcase. destruct Hcase as [[_ [=]]|(e' & -> & [= ->])].
    split; [done|]. split; [simpl; lia|].
    intros ev Hin. vm_compute in Hin.
    by apply list_elem_of_singleton in Hin as ->.
Qed.

Lemma Converter_failure_leaves_store_unchanged_witness :
  blob_store ∅ [ok (S3GetObject (str "pixel") (str "photos/bad.png"))] = ∅
  /\ length (uploads [ok (S3GetObject (str "pixel") (str "photos/bad.png"))])
     <= 1.
Proof.
  destruct (Converter_failure_leaves_store_unchanged (H := Demo.env)
              (Demo.message "photos/bad.png") []
              [ok (S3GetObject (str "pixel") (str "photos/bad.png"))]
              (str "image: unknown format")) as (Hstore & Hlen & _).
  - vm_compute. reflexivity.
  - split; [apply Hstore | exact Hlen].
Defined.

(** X8. Two uploads under one name: the last one wins.  When the
    converter handles two records of one bucket whose keys have the
    same name, one after the other and both without error, both uploads
    go to the same path and the store ends with the artifact of the
    second record. *)
Theorem Converter_same_name_last_write_wins `{Env}
        (first second : events.SQSMessage) (b1 b2 : messageBody)
        (t evs1 evs2 : Trace) :
  json_Unmarshal (events.Body first) = Ok b1 ->
  json_Unmarshal (events.Body second) = Ok b2 ->
  Bucket b1 = Bucket b2 ->
  Converter.extractFilename (Key b1) = Converter.extractFilename (Key b2) ->
  Converter.handle_record first t = (evs1, Ok tt) ->
  Converter.handle_record second (t ++ evs1) = (evs2, Ok tt) ->
  exists path jpeg1 jpeg2,
    path = str "converted/" ++ Converter.extractFilename (Key b2) ++ str ".jpg"
    /\ uploads (evs1 ++ evs2)
       = [ok (S3PutObject (Bucket b2) path jpeg1);
          ok (S3PutObject (Bucket b2) path jpeg2)]
    /\ forall before,
        blob_store before (evs1 ++ evs2) !! (Bucket b2, path) = Some jpeg2.
Proof.
  intros Hj1 Hj2 Hbucket Hname Hrun1 Hrun2.
  destruct (Converter_handle_record_run _ _ _ _ Hrun1)
    as [(e & [=] & _)
       |(b1' & out1 & img1 & f1 & jpeg1 & Hb1 & _ & _ & _ & Hcase1)].
  destruct (Converter_handle_record_run _ _ _ _ Hrun2)
    as [(e & [=] & _)
       |(b2' & out2 & img2 & f2 & jpeg2 & Hb2 & _ & _ & _ & Hcase2)].
  cbv zeta in Hcase1, Hcase2.
  rewrite Hj1 in Hb1. injection Hb1 as <-.
  rewrite Hj2 in Hb2. injection Hb2 as <-.
  destruct Hcase1 as [[-> _]|(e & _ & [=])].
  destruct Hcase2 as [[-> _]|(e & _ & [=])].
  rewrite Hbucket, Hname.
  eexists _, jpeg1, jpeg2. split; [done|]. split; [done|].
  intros before. unfold blob_store. simpl. apply lookup_insert_eq.
Qed.

Lemma Converter_same_name_last_write_wins_witness :
  exists path jpeg1 jpeg2,
    path = str "converted/"
             ++ Converter.extractFilename (Key (Demo.uploaded "photos/aaa.png"))
             ++ str ".jpg"
    /\ uploads
         ([ok (S3GetObject (str "pixel") (str "photos/aaa.png"));
           ok (S3PutObject (str "pixel") (str "converted/aaa.jpg")
                           (str "JPEG 640 q100"))]
          ++ [ok (S3GetObject (str "pixel") (str "photos/aaa.png"));
              ok (S3PutObject (str "pixel") (str "converted/aaa.jpg")
                              (str "JPEG 640 q100"))])
       = [ok (S3PutObject (Bucket (Demo.uploaded "photos/aaa.png")) path jpeg1);
          ok (S3PutObject (Bucket (Demo.uploaded "photos/aaa.png")) path jpeg2)]
    /\ forall before,
        blob_store before
          ([ok (S3GetObject (str "pixel") (str "photos/aaa.png"));
            ok (S3PutObject (str "pixel") (str "converted/aaa.jpg")
                            (str "JPEG 640 q100"))]
           ++ [ok (S3GetObject (str "pixel") (str "photos/aaa.png"));
               ok (S3PutObject (str "pixel") (str "converted/aaa.jpg")
                               (str "JPEG 640 q100"))])
        !! (Bucket (Demo.uploaded "photos/aaa.png"), path) = Some jpeg2.
Proof.
  apply (Converter_same_name_last_write_wins (H := Demo.env)
           (Demo.message "photos/aaa.png") (Demo.message "photos/aaa.png")
           (Demo.uploaded "photos/aaa.png") (Demo.uploaded "photos/aaa.png")
           []); vm_compute; reflexivity.
Defined.

(** X9. The resizer fails on a record only before any upload.  When
    the handling of a record returns an error, no upload was attempted
    and the store is as it was; so a trace that holds an upload belongs
    to a record whose handling returned nil. *)
Theorem Resizer_fails_only_before_uploading `{Env}
        (record : events.SQSMessage) (t evs : Trace) (e : error) :
  Resizer.handle_record record t = (evs, Err e) ->
  uploads evs = []
  /\ length evs <= 1
  /\ forall before, blob_store before evs = before.
Proof.
  intros Hrun.
  destruct (json_Unmarshal (events.Body record)) as [body|e0] eqn:Hjson.
  2: { unfold Resizer.handle_record in Hrun. unfold_M.
       rewrite Hjson in Hrun. injection Hrun as <- _.
       split; [done|]. split; [simpl; lia|done]. }
  destruct (s3_GetObject t (Bucket body) (Key body)) as [out|e0] eqn:Hget.
  2: { unfold Resizer.handle_record, Resizer.getObject in Hrun. unfold_M.
       rewrite Hjson, app_nil_r, Hget in Hrun. injection Hrun as <- _.
       split; [done|]. split; [simpl; lia|done]. }
  destruct (image_Decode (out_Body out)) as [[img format]|e0]
    eqn:Hdec.
  - by rewrite (Resizer_handle_record_after_decode _ _ _ _ _ _ Hjson Hget Hdec)
      in Hrun.
  - rewrite (Resizer_decode_fails _ _ _ _ _ Hjson Hget Hdec) in Hrun.
    injection Hrun as <- _. split; [done|]. split; [simpl; lia|done].
Qed.

Lemma Resizer_fails_only_before_uploading_witness :
  uploads [ok (S3GetObject (str "pixel") (str "photos/bad.png"))] = []
  /\ length [ok (S3GetObject (str "pixel") (str "photos/bad.png"))] <= 1
  /\ forall before,
      blob_store before [ok (S3GetObject (str "pixel") (str "photos/bad.png"))]
      = before.
Proof.
  apply (Resizer_fails_only_before_uploading (H := Demo.env)
           (Demo.message "photos/bad.png") [] _
           (str "image: unknown format")).
  vm_compute. reflexivity.
Defined.

Section ResizerTasks.

Context `{Env} (body : messageBody) (img : Image).
Implicit Types (t : Trace) (task : Resizer.resizeTask).

Local Abbreviation spawn :=
  (fun task => go (Resizer.resize_goroutine body img task)).

(** The calls of the goroutines: one upload for every task whose
    encoding succeeds, whatever became of the uploads before it. *)
Lemma goroutines_calls (tasks : list Resizer.resizeTask) t :
  ev_call <$> (range tasks spawn t).1 = omap (upload_call body img) tasks.
Proof.
  revert t. induction tasks as [|task tasks IH]; intros t; [done|].
  assert (omap (upload_call body img) (task :: tasks)
          = match upload_call body img task with
            | Some c => c :: omap (upload_call body img) tasks
            | None => omap (upload_call body img) tasks
            end) as -> by done.
  unfold upload_call at 1, Resizer.convertToJPEG. cbv zeta.
  change (range (task :: tasks) spawn t)
    with (bind (spawn task) (fun _ => range tasks spawn) t).
  unfold bind, go at 1. rewrite resize_goroutine_run.
  destruct (jpeg_Encode _ _) as [j|e].
  - destruct (s3_PutObject _ _ _ _) as [e|];
      match goal with
      | |- context [range tasks _ ?t'] =>
          specialize (IH t'); destruct (range tasks _ t') as [l r]
      end; cbn [fst] in *; by rewrite fmap_app, IH.
  - specialize (IH (t ++ [])). destruct (range tasks _ (t ++ [])) as [l r].
    cbn [fst] in *. by rewrite fmap_app, IH.
Qed.

(** Two tasks of the list that upload to the same key are the same
    task. *)
Lemma upload_call_key_inj task task' bucket key j j' :
  task ∈ Resizer.resizeTasks -> task' ∈ Resizer.resizeTasks ->
  upload_call body img task = Some (S3PutObject bucket key j) ->
  upload_call body img task' = Some (S3PutObject bucket key j') ->
  task = task'.
Proof.
  intros Htask Htask' Hc Hc'.
  assert (Resizer.SizeName task = Resizer.SizeName task') as Hname.
  { unfold upload_call in Hc, Hc'.
    destruct (Resizer.convertToJPEG _) in Hc; [|done].
    destruct (Resizer.convertToJPEG _) in Hc'; [|done].
    injection Hc as _ Hkey _. injection Hc' as _ Hkey' _.
    rewrite <- Hkey' in Hkey.
    injection Hkey as Hkey. apply app_inv_head in Hkey.
    injection Hkey as Hkey. by apply app_inv_tail in Hkey. }
  unfold Resizer.resizeTasks in Htask, Htask'.
  repeat (apply elem_of_cons in Htask as [->|Htask]);
    try (by apply elem_of_nil in Htask);
    repeat (apply elem_of_cons in Htask' as [->|Htask']);
    try (by apply elem_of_nil in Htask'); try done;
    vm_compute in Hname; discriminate.
Qed.

Lemma upload_calls_NoDup :
  NoDup (omap (upload_call body img) Resizer.resizeTasks).
Proof.
  assert (forall tasks,
             NoDup tasks -> tasks ⊆ Resizer.resizeTasks ->
             NoDup (omap (upload_call body img) tasks)) as Hgen.
  { induction tasks as [|task tasks IH]; intros Hnodup Hsub; [constructor|].
    apply NoDup_cons in Hnodup as [Hnotin Hnodup].
    assert (tasks ⊆ Resizer.resizeTasks) as Hsub'.
    { intros x Hx. apply Hsub. by right. }
    simpl. destruct (upload_call body img task) as [c|] eqn:Hc; [|by apply IH].
    apply NoDup_cons. split; [|by apply IH].
    intros (task' & Hin & Hc')%list_elem_of_omap.
    apply Hnotin.
    assert (task = task') as ->; [|done].
    destruct c as [| |b k j| | | | | |];
      try (unfold upload_call in Hc;
           by destruct (Resizer.convertToJPEG _) in Hc).
    eapply upload_call_key_inj; [| |exact Hc|exact Hc'].
    - apply Hsub. by left.
    - by apply Hsub'. }
  apply Hgen; [|done].
  unfold Resizer.resizeTasks.
  repeat (apply NoDup_cons; split;
          [rewrite ?elem_of_cons, ?elem_of_nil; intros Hin;
           repeat destruct Hin as [Hin|Hin]; done|]).
  constructor.
Qed.

End ResizerTasks.

Lemma omap_length_le {A B : Type} (f : A -> option B) (l : list A) :
  length (omap f l) <= length l.
Proof.
  induction l as [|a l IH]; [done|].
  change (omap f (a :: l))
    with (match f a with Some y => y :: omap f l | None => omap f l end).
  destruct (f a); simpl length; lia.
Qed.

(** In a list whose images under [f] are all different, two elements
    with the same image are the same. *)
Lemma NoDup_fmap_elem_inj {A B : Type} (f : A -> B) (l : list A) (x y : A) :
  NoDup (f <$> l) -> x ∈ l -> y ∈ l -> f x = f y -> x = y.
Proof.
  induction l as [|a l IH]; intros Hnodup Hx Hy Hf.
  - by apply elem_of_nil in Hx.
  - rewrite fmap_cons in Hnodup. apply NoDup_cons in Hnodup as [Hnotin Hnodup].
    apply elem_of_cons in Hx as [->|Hx]; apply elem_of_cons in Hy as [->|Hy].
    + done.
    + exfalso. apply Hnotin. rewrite Hf. by apply list_elem_of_fmap_2.
    + exfalso. apply Hnotin. rewrite <- Hf. by apply list_elem_of_fmap_2.
    + by apply IH.
Qed.

(** X10. The resize tasks do not wait for each other.  Once the image is
    decoded, the uploads attempted for a record are, in the order the
    goroutines ran, those of the tasks whose encoding succeeded: a task
    whose encoding or upload fails stops no other task.  When the
    goroutines run in some order of the three tasks, at most three
    uploads are attempted and every task whose encoding succeeded has
    its upload attempted. *)
Theorem Resizer_tasks_do_not_wait_for_each_other `{Env}
        (record : events.SQSMessage) (body : messageBody)
        (out : GetObjectOutput) (img : Image) (format : gostring)
        (t : Trace) :
  json_Unmarshal (events.Body record) = Ok body ->
  s3_GetObject t (Bucket body) (Key body) = Ok out ->
  image_Decode (out_Body out) = Ok (img, format) ->
  exists ups,
    Resizer.handle_record record t
    = (ok (S3GetObject (Bucket body) (Key body)) :: ups, Ok tt)
    /\ ev_call <$> ups
       = omap (upload_call body img)
              (go_schedule Resizer.resizeTask Resizer.resizeTasks)
    /\ ((forall (A : Type) (l : list A), go_schedule A l ≡ₚ l) ->
        length ups <= 3
        /\ forall task c,
            task ∈ Resizer.resizeTasks ->
            upload_call body img task = Some c ->
            c ∈ ev_call <$> ups).
Proof.
  intros Hjson Hget Hdec.
  rewrite (Resizer_handle_record_after_decode _ _ _ _ _ _ Hjson Hget Hdec).
  eexists. split; [done|]. split; [apply goroutines_calls|].
  intros Hsched. split.
  - rewrite <- (length_fmap ev_call), goroutines_calls.
    rewrite (Hsched Resizer.resizeTask Resizer.resizeTasks).
    etrans; [apply omap_length_le|done].
  - intros task c Htask Hc. rewrite goroutines_calls.
    rewrite (Hsched Resizer.resizeTask Resizer.resizeTasks).
    apply list_elem_of_omap. by exists task.
Qed.

Lemma Resizer_tasks_do_not_wait_for_each_other_witness :
  exists ups,
    Resizer.handle_record (H := Demo.env) (Demo.message "photos/bbb.png") []
    = (ok (S3GetObject (str "pixel") (str "photos/bbb.png")) :: ups, Ok tt)
    /\ length ups <= 3.
Proof.
  destruct (Resizer_tasks_do_not_wait_for_each_other (H := Demo.env)
              (Demo.message "photos/bbb.png") (Demo.uploaded "photos/bbb.png")
              {| out_Body := Demo.stream Demo.png |} (640%N, Demo.png) (str "png") [])
    as (ups & Hrun & _ & Hsched); [vm_compute; reflexivity ..|].
  exists ups. split; [exact Hrun|]. apply Hsched.
  intros A l. simpl. symmetry. apply Permutation_rev.
Defined.

(** X11. What a partial failure leaves behind.  For a decoded image and
    goroutines run in some order of the three tasks, every task whose
    encoding succeeded has exactly one upload in the trace: one event
    makes the upload of the task, and every event that uploads to the
    key of the task is that event.  After the record the key holds the
    new artifact when that upload succeeded and what it held before
    when it failed: the sizes that were uploaded are in place beside a
    stale or missing one, and the handling returned nil. *)
Theorem Resizer_partial_failure_leaves_partial_set `{Env}
        (record : events.SQSMessage) (body : messageBody)
        (out : GetObjectOutput) (img : Image) (format : gostring)
        (task : Resizer.resizeTask) (key : gostring) (jpegImg : bytes)
        (t : Trace) :
  (forall (A : Type) (l : list A), go_schedule A l ≡ₚ l) ->
  json_Unmarshal (events.Body record) = Ok body ->
  s3_GetObject t (Bucket body) (Key body) = Ok out ->
  image_Decode (out_Body out) = Ok (img, format) ->
  task ∈ Resizer.resizeTasks ->
  upload_call body img task = Some (S3PutObject (Bucket body) key jpegImg) ->
  exists evs ev,
    Resizer.handle_record record t = (evs, Ok tt)
    /\ ev ∈ evs
    /\ ev_call ev = S3PutObject (Bucket body) key jpegImg
    /\ (forall ev' j',
          ev' ∈ evs ->
          ev_call ev' = S3PutObject (Bucket body) key j' -> ev' = ev)
    /\ forall before,
        blob_store before evs !! (Bucket body, key)
        = match ev_err ev with
          | None => Some jpegImg
          | Some _ => before !! (Bucket body, key)
          end.
Proof.
  intros Hsched Hjson Hget Hdec Htask Hcall.
  pose proof (Resizer_handle_record_after_decode _ _ _ _ _ _ Hjson Hget Hdec)
    as Hrun.
  set (ups := (range _ _ _).1) in Hrun.
  assert (ev_call <$> ups ≡ₚ omap (upload_call body img) Resizer.resizeTasks)
    as Hcalls.
  { subst ups. rewrite goroutines_calls.
    by rewrite (Hsched Resizer.resizeTask Resizer.resizeTasks). }
  assert (NoDup (ev_call <$> ups)) as Hnodup.
  { rewrite Hcalls. apply upload_calls_NoDup. }
  assert (S3PutObject (Bucket body) key jpegImg ∈ ev_call <$> ups) as Hin.
  { rewrite Hcalls. apply list_elem_of_omap. by exists task. }
  apply list_elem_of_fmap in Hin as (ev & Hev & Hin).
  assert (forall ev', ev' ∈ ups ->
            forall j', ev_call ev' = S3PutObject (Bucket body) key j' ->
                       ev' = ev) as Hone.
  { intros ev' Hin' j' Hcall'.
    assert (ev_call ev' ∈ omap (upload_call body img) Resizer.resizeTasks)
      as Hmem by (rewrite <- Hcalls; by apply list_elem_of_fmap_2).
    apply list_elem_of_omap in Hmem as (task' & Htask' & Hup').
    rewrite Hcall' in Hup'.
    assert (task = task') as <-
        by (eapply upload_call_key_inj; [| |exact Hcall|exact Hup']; done).
    eapply (NoDup_fmap_elem_inj ev_call); [done..|].
    rewrite <- Hev, Hcall'. congruence. }
  exists (ok (S3GetObject (Bucket body) (Key body)) :: ups), ev.
  split; [done|]. split; [by right|]. split; [done|].
  split.
  { intros ev' j' [->|Hin']%elem_of_cons Hcall'; [done|].
    by apply (Hone ev' Hin' j'). }
  intros before. destruct ev as [c [e|]]; simpl in Hev; subst c;
    cbn [ev_err].
  - apply blob_store_untouched. intros j' [Habs|Habs]%elem_of_cons; [done|].
    by specialize (Hone _ Habs j' eq_refl).
  - apply blob_store_lookup; [by right|].
    intros j' [Habs|Habs]%elem_of_cons; [done|].
    specialize (Hone _ Habs j' eq_refl). unfold ok in Hone. congruence.
Qed.

Lemma Resizer_partial_failure_leaves_partial_set_witness :
  exists evs ev,
    Resizer.handle_record (H := Demo.env) (Demo.message "photos/bbb.png") []
    = (evs, Ok tt)
    /\ ev ∈ evs
    /\ ev_call ev = S3PutObject (str "pixel") (str "resized/bbb/medium.jpg")
                                (str "JPEG 500 q100")
    /\ (forall ev' j',
          ev' ∈ evs ->
          ev_call ev' = S3PutObject (str "pixel")
                                    (str "resized/bbb/medium.jpg") j' ->
          ev' = ev)
    /\ forall before,
        blob_store before evs !! (str "pixel", str "resized/bbb/medium.jpg")
        = match ev_err ev with
          | None => Some (str "JPEG 500 q100")
          | Some _ => before !! (str "pixel", str "resized/bbb/medium.jpg")
          end.
Proof.
  apply (Resizer_partial_failure_leaves_partial_set (H := Demo.env)
           (Demo.message "photos/bbb.png") (Demo.uploaded "photos/bbb.png")
           {| out_Body := Demo.stream Demo.png |} (640%N, Demo.png) (str "png")
           {| Resizer.SizeName := str "medium"; Resizer.Width := 500 |}
           (str "resized/bbb/medium.jpg") (str "JPEG 500 q100") []).
  - intros A l. simpl. symmetry. apply Permutation_rev.
  - vm_compute; reflexivity.
  - vm_compute; reflexivity.
  - vm_compute; reflexivity.
  - unfold Resizer.resizeTasks. apply elem_of_cons. right. by left.
  - vm_compute; reflexivity.
Defined.

(** ** More about the metadata extractor *)

Ltac keys_differ := intros Heq; vm_compute in Heq; discriminate.

Ltac find_key :=
  repeat (rewrite lookup_insert_ne by keys_differ); apply lookup_insert_eq.

Ltac in_list :=
  repeat first [apply list_elem_of_here | apply list_elem_of_further].

Ltac not_in_list H :=
  repeat (apply elem_of_cons in H as [H|H]); try done;
  by apply elem_of_nil in H.

(** X12. A record the metadata extractor handles without error.  It makes
    six calls in this order: the fetch, the write of the temporary
    copy, its opening, its [Stat], its removal (whose result is
    ignored) and one [PutItem] to the table [pixel-metadata].  The item
    has exactly the attributes [name], [bucket] and [metadata]: the
    name of the key, the bucket, and a map with exactly the six fields
    [width], [height], [format], [file_size], [file_name] and
    [last_modified], taken from the decoded header and from the file
    information. *)
Theorem Metadata_writes_one_record `{Env} (record : events.SQSMessage)
        (t evs : Trace) :
  Metadata.handle_record record t = (evs, Ok tt) ->
  exists body out bs cfg format fileInfo t' removed item md,
    let path := filepath_Join (str "/tmp") (filepath.Base (Key body)) in
    json_Unmarshal (events.Body record) = Ok body
    /\ s3_GetObject t (Bucket body) (Key body) = Ok out
    /\ io_ReadAll (out_Body out) = Ok bs
    /\ image_DecodeConfig bs = Ok (cfg, format)
    /\ os_Stat t' path = Ok fileInfo
    /\ evs = [ok (S3GetObject (Bucket body) (Key body));
              ok (OsWriteFile path bs);
              ok (OsOpen path);
              ok (OsStat path);
              {| ev_call := OsRemove path; ev_err := removed |};
              ok (DynamoPutItem (str "pixel-metadata") item)]
    /\ dom item = {[str "name"; str "bucket"; str "metadata"]}
    /\ item !! str "name"
       = Some (AttributeValueMemberS (Metadata.extractFilename (Key body)))
    /\ item !! str "bucket" = Some (AttributeValueMemberS (Bucket body))
    /\ item !! str "metadata" = Some (AttributeValueMemberM md)
    /\ dom md = {[str "width"; str "height"; str "format"; str "file_size";
                  str "file_name"; str "last_modified"]}
    /\ md !! str "width"
       = Some (AttributeValueMemberS (strconv_Itoa (image.Width cfg)))
    /\ md !! str "height"
       = Some (AttributeValueMemberS (strconv_Itoa (image.Height cfg)))
    /\ md !! str "format" = Some (AttributeValueMemberS format)
    /\ md !! str "file_size"
       = Some (AttributeValueMemberS (strconv_Itoa (fi_Size fileInfo)))
    /\ md !! str "file_name" = Some (AttributeValueMemberS (fi_Name fileInfo))
    /\ md !! str "last_modified"
       = Some (AttributeValueMemberS
                 (time_Format (fi_ModTime fileInfo) RFC3339)).
Proof.
  unfold Metadata.handle_record, Metadata.generateMetadata,
    Metadata.getObject, Metadata.createDynamoDBItem,
    Metadata.convertToAttributeValue. unfold_M.
  destruct (json_Unmarshal _) as [body|] eqn:Hjson; [|done].
  rewrite app_nil_r.
  destruct (s3_GetObject _ _ _) as [out|] eqn:Hget; [|done].
  destruct (io_ReadAll (out_Body out)) as [bs|] eqn:Hbody; [|done].
  destruct (os_WriteFile _ _ _) as [|] eqn:Hwrite; [done|].
  destruct (os_Open _ _) as [|] eqn:Hopen; [by destruct (os_Remove _ _)|].
  destruct (image_DecodeConfig bs) as [[cfg format]|] eqn:Hdec;
    [|by destruct (os_Remove _ _)].
  destruct (os_Stat _ _) as [fileInfo|] eqn:Hstat;
    [|by destruct (os_Remove _ _)].
  destruct (os_Remove _ _) as [er|] eqn:Hremove;
    (destruct (dynamodb_PutItem _ _ _) as [|] eqn:Hput; [done|]);
    simpl; intros [= <-];
    eexists body, out, bs, cfg, format, fileInfo, _, _, _, _; cbv zeta;
    (split; [done|]); (split; [done|]); (split; [done|]); (split; [done|]);
    (split; [exact Hstat|]); (split; [reflexivity|]);
    (split; [rewrite !dom_insert_L, dom_empty_L; set_solver|]);
    (split; [find_key|]); (split; [find_key|]); (split; [find_key|]);
    (split; [rewrite dom_fmap_L, !dom_insert_L, dom_empty_L; set_solver|]);
    repeat split; rewrite lookup_fmap;
    match goal with
    | |- _ <$> ?m !! ?k = Some (_ ?v) =>
        assert (m !! k = Some v) as -> by find_key; done
    end.
Qed.

Lemma Metadata_writes_one_record_witness :
  exists item : gmap gostring AttributeValue,
    item !! str "name" = Some (AttributeValueMemberS (str "aaa"))
    /\ dom item = {[str "name"; str "bucket"; str "metadata"]}.
Proof.
  destruct (Metadata_writes_one_record (H := Demo.env)
              (Demo.message "photos/aaa.png") []
              (Metadata.handle_record (H := Demo.env)
                 (Demo.message "photos/aaa.png") []).1)
    as (body & out & bs & cfg & format & fileInfo & t' & removed & item & md
        & Hjson & _ & _ & _ & _ & _ & Hdom & Hname & _).
  - vm_compute. reflexivity.
  - vm_compute in Hjson. injection Hjson as <-.
    exists item. split; [exact Hname | exact Hdom].
Defined.

(** X13. The temporary copy never outlives the call.  Whenever
    [generateMetadata] has written its temporary file, the last thing
    it does is to remove that file, once, whether the steps in between
    succeeded or not; and when the file could not be written, it is
    neither opened, nor inspected, nor removed, and the call fails. *)
Theorem generateMetadata_removes_its_temporary_file `{Env}
        (bucket key : gostring) (t evs : Trace)
        (r : result (gmap gostring gostring)) :
  Metadata.generateMetadata bucket key t = (evs, r) ->
  let path := filepath_Join (str "/tmp") (filepath.Base key) in
  (forall data,
      ok (OsWriteFile path data) ∈ evs ->
      exists pre removed,
        evs = pre ++ [{| ev_call := OsRemove path; ev_err := removed |}]
        /\ Forall (fun ev => ev_call ev <> OsRemove path) pre)
  /\ ((forall data, ok (OsWriteFile path data) ∉ evs) ->
      (exists e, r = Err e)
      /\ Forall (fun ev => match ev_call ev with
                           | OsOpen _ | OsStat _ | OsRemove _ => False
                           | _ => True
                           end) evs).
Proof.
  intros Hrun. cbv zeta. revert Hrun.
  unfold Metadata.generateMetadata, Metadata.getObject. unfold_M.
  set (path := filepath_Join (str "/tmp") (filepath.Base key)).
  destruct (s3_GetObject _ _ _) as [out|] eqn:Hget.
  2: { simpl. intros [= <- <-]. split.
       - intros data Hin. not_in_list Hin.
       - intros _. split; [by eexists|]. by repeat constructor. }
  destruct (io_ReadAll (out_Body out)) as [bs|] eqn:Hbody.
  2: { simpl. intros [= <- <-]. split.
       - intros data Hin. not_in_list Hin.
       - intros _. split; [by eexists|]. by repeat constructor. }
  destruct (os_WriteFile _ _ _) as [|] eqn:Hwrite.
  { simpl. intros [= <- <-]. split.
    - intros data Hin. not_in_list Hin.
    - intros _. split; [by eexists|]. by repeat constructor. }
  assert (forall (pre : Trace) (r' : result (gmap gostring gostring)) removed,
             Forall (fun ev => ev_call ev <> OsRemove path) pre ->
             ok (OsWriteFile path bs) ∈ pre ->
             (pre ++ [{| ev_call := OsRemove path; ev_err := removed |}], r')
             = (evs, r) ->
             (forall data,
                 ok (OsWriteFile path data) ∈ evs ->
                 exists pre' removed',
                   evs = pre' ++ [{| ev_call := OsRemove path;
                                     ev_err := removed' |}]
                   /\ Forall (fun ev => ev_call ev <> OsRemove path) pre')
             /\ ((forall data, ok (OsWriteFile path data) ∉ evs) ->
                 (exists e, r = Err e)
                 /\ Forall (fun ev => match ev_call ev with
                                      | OsOpen _ | OsStat _ | OsRemove _ =>
                                          False
                                      | _ => True
                                      end) evs)) as Hwritten.
  { intros pre r' removed Hpre Hin [= <- <-]. split.
    - intros _ _. by exists pre, removed.
    - intros Hno. exfalso. apply (Hno bs), elem_of_app. by left. }
  destruct (os_Open _ _) as [|] eqn:Hopen.
  { destruct (os_Remove _ _); simpl;
      apply (Hwritten [_; _; _]); first [by repeat constructor|in_list]. }
  destruct (image_DecodeConfig bs) as [[cfg format]|] eqn:Hdec.
  2: { destruct (os_Remove _ _); simpl;
         apply (Hwritten [_; _; _]); first [by repeat constructor|in_list]. }
  destruct (os_Stat _ _) as [fileInfo|] eqn:Hstat;
    destruct (os_Remove _ _); simpl;
    apply (Hwritten [_; _; _; _]); first [by repeat constructor|in_list].
Qed.

Lemma generateMetadata_removes_its_temporary_file_witness :
  exists pre removed,
    [ok (S3GetObject (str "pixel") (str "photos/bad.png"));
     ok (OsWriteFile (str "/tmp/bad.png") Demo.garbage);
     ok (OsOpen (str "/tmp/bad.png"));
     ok (OsRemove (str "/tmp/bad.png"))]
    = pre ++ [{| ev_call := OsRemove (str "/tmp/bad.png");
                 ev_err := removed |}]
    /\ Forall (fun ev => ev_call ev <> OsRemove (str "/tmp/bad.png")) pre.
Proof.
  destruct (generateMetadata_removes_its_temporary_file (H := Demo.env)
              (str "pixel") (str "photos/bad.png") []
              [ok (S3GetObject (str "pixel") (str "photos/bad.png"));
               ok (OsWriteFile (str "/tmp/bad.png") Demo.garbage);
               ok (OsOpen (str "/tmp/bad.png"));
               ok (OsRemove (str "/tmp/bad.png"))]
              (Err (str "image: unknown format"))) as [Hwritten _].
  - vm_compute. reflexivity.
  - apply (Hwritten Demo.garbage). apply list_elem_of_further.
    apply list_elem_of_here.
Defined.

(** ** What the entry points never do *)

Section Lanes.

Context `{Env}.
Implicit Types (t : Trace) (w : Worker).

Lemma bind_Forall {A B : Type} (P : Event -> Prop) (m : M A) (k : A -> M B) t :
  Forall P (m t).1 -> (forall a t', Forall P (k a t').1) ->
  Forall P (bind m k t).1.
Proof.
  intros Hm Hk. unfold bind. destruct (m t) as [evs [a|e]]; [|done].
  specialize (Hk a (t ++ evs)). destruct (k a (t ++ evs)).
  simpl in *. by apply Forall_app.
Qed.

Lemma range_Forall_elem {A : Type} (P : Event -> Prop) (body : A -> M unit)
      (xs : list A) t :
  (forall x, x ∈ xs -> forall t', Forall P (body x t').1) ->
  Forall P (range xs body t).1.
Proof.
  revert t. induction xs as [|x xs IH]; intros t Hbody; [by constructor|].
  simpl. apply bind_Forall; [apply Hbody; by left|].
  intros _ t'. apply IH. intros y Hy. apply Hbody. by right.
Qed.

Lemma own_call_mono w (tasks tasks' : list Resizer.resizeTask)
      (bodies bodies' : list messageBody) (c : Call) :
  tasks ⊆ tasks' -> bodies ⊆ bodies' ->
  own_call w tasks bodies c -> own_call w tasks' bodies' c.
Proof.
  intros Htasks Hsub. destruct c, w; simpl; try done; intros Hown;
    repeat match goal with
           | Hex : exists _, _ |- _ => destruct Hex
           | Hand : _ /\ _ |- _ => destruct Hand
           end;
    repeat (split; [done|]);
    repeat eexists;
    first [apply Hsub; eassumption | apply Htasks; eassumption
          | eassumption | done].
Qed.

Ltac own_body :=
  simpl; repeat (split; [done|]);
  first [ done
        | eexists; split; [apply list_elem_of_here|];
          first [ done | find_key | by repeat split ] ].

Lemma Metadata_handle_record_calls record body tasks t :
  json_Unmarshal (events.Body record) = Ok body ->
  Forall (fun ev => own_call MetadataWorker tasks [body] (ev_call ev))
         (Metadata.handle_record record t).1.
Proof.
  intros Hjson.
  unfold Metadata.handle_record, Metadata.generateMetadata,
    Metadata.getObject, Metadata.createDynamoDBItem.
  unfold_M. rewrite Hjson.
  repeat match goal with
         | |- context [match ?x with _ => _ end] =>
             lazymatch x with
             | context [match _ with _ => _ end] => fail
             | _ => destruct x
             end
         end; simpl; repeat (constructor; [own_body|]); constructor.
Qed.

Lemma Converter_handle_record_calls record body tasks t :
  json_Unmarshal (events.Body record) = Ok body ->
  Forall (fun ev => own_call ConverterWorker tasks [body] (ev_call ev))
         (Converter.handle_record record t).1.
Proof.
  intros Hjson.
  unfold Converter.handle_record, Converter.getObject, Converter.putObject.
  unfold_M. rewrite Hjson.
  repeat match goal with
         | |- context [match ?x with _ => _ end] =>
             lazymatch x with
             | context [match _ with _ => _ end] => fail
             | _ => destruct x
             end
         end; simpl; repeat (constructor; [own_body|]); constructor.
Qed.

Lemma Resizer_handle_record_calls record body t :
  json_Unmarshal (events.Body record) = Ok body ->
  Forall (fun ev =>
            own_call ResizerWorker
                     (go_schedule Resizer.resizeTask Resizer.resizeTasks)
                     [body] (ev_call ev))
         (Resizer.handle_record record t).1.
Proof.
  intros Hjson.
  unfold Resizer.handle_record, Resizer.getObject.
  unfold mbind, M_bind, lift, call. unfold bind at 1. rewrite Hjson.
  match goal with
  | |- context [bind ?m ?k ?t'] =>
      pose proof (bind_Forall
                    (fun ev =>
                       own_call ResizerWorker
                         (go_schedule Resizer.resizeTask Resizer.resizeTasks)
                         [body] (ev_call ev))
                    m k t') as Hbind;
        destruct (bind m k t') as [evs r]
  end.
  simpl in *. apply Hbind.
  - destruct (s3_GetObject _ _ _); repeat (constructor; [own_body|]);
      constructor.
  - intros out t2. apply bind_Forall; [constructor|]. intros [img format] t3.
    apply range_Forall_elem. intros task Htask t4. unfold go.
    rewrite resize_goroutine_run.
    destruct (jpeg_Encode _ _); [|constructor].
    destruct (s3_PutObject _ _ _ _); (constructor; [|constructor]);
      simpl; exists body, task; repeat split; try done; apply list_elem_of_here.
Qed.

Lemma handle_record_of_calls w record bodies t :
  (forall body,
      json_Unmarshal (events.Body record) = Ok body -> body ∈ bodies) ->
  Forall (fun ev =>
            own_call w (go_schedule Resizer.resizeTask Resizer.resizeTasks)
                     bodies (ev_call ev))
         (handle_record_of w record t).1.
Proof.
  intros Hin.
  destruct (json_Unmarshal (events.Body record)) as [body|e] eqn:Hjson.
  - eapply Forall_impl.
    + destruct w; simpl.
      * by apply Metadata_handle_record_calls.
      * by apply Converter_handle_record_calls.
      * by apply Resizer_handle_record_calls.
    + intros ev. apply own_call_mono; [done|].
      intros b ->%list_elem_of_singleton. by apply Hin.
  - destruct w; simpl;
      unfold Metadata.handle_record, Converter.handle_record,
        Resizer.handle_record; unfold_M; rewrite Hjson; constructor.
Qed.

End Lanes.

(** X14. Each entry point keeps to its own calls, on every event and
    whatever fails.  Besides loading the configuration, every call a
    worker makes is for one of the messages of the event: the fetch of
    its object; for the metadata extractor, the calls on the temporary
    copy at [filepath.Join("/tmp", filepath.Base(key))] and a
    [PutItem] into [pixel-metadata] named after the key; for the
    converter, an upload to [converted/{name}.jpg] in the bucket of the
    message; for the resizer, an upload to [resized/{name}/{size}.jpg]
    in the bucket of the message, for one of the tasks the goroutines
    were started for, which are the three tasks of [resizeTasks] when
    the order they run in is an order of these.  The notifier only
    publishes to its topic.  In particular the metadata extractor never
    changes a blob of the store. *)
Theorem entry_points_keep_to_their_calls `{Env} (w : Worker)
        (event : events.SQSEvent) (s3Event : events.S3Event) (t : Trace) :
  Forall (fun ev =>
            own_call w (go_schedule Resizer.resizeTask Resizer.resizeTasks)
                     (parsed_bodies event) (ev_call ev))
         (handler_of w event t).1
  /\ ((forall (A : Type) (l : list A), go_schedule A l ≡ₚ l) ->
      Forall (fun ev =>
                own_call w Resizer.resizeTasks (parsed_bodies event)
                         (ev_call ev))
             (handler_of w event t).1)
  /\ Forall (fun ev => notifier_call (ev_call ev) = true)
            (Notifier.handler s3Event t).1
  /\ forall before,
      blob_store before (handler_of MetadataWorker event t).1 = before.
Proof.
  assert (forall w',
             Forall (fun ev =>
                       own_call w'
                         (go_schedule Resizer.resizeTask Resizer.resizeTasks)
                         (parsed_bodies event) (ev_call ev))
                    (handler_of w' event t).1) as Hown.
  { intros w'. rewrite handler_of_unfold. apply bind_Forall.
    - unfold loadDefaultConfig, call_err.
      destruct (config_LoadDefaultConfig t); by repeat constructor.
    - intros _ t'. apply range_Forall_elem. intros record Hrecord t''.
      apply handle_record_of_calls. intros body Hjson.
      apply list_elem_of_omap. exists record. by rewrite Hjson. }
  split; [apply Hown|]. split; [|split].
  - intros Hperm. eapply Forall_impl; [apply (Hown w)|].
    intros ev. apply own_call_mono; [|done].
    intros task Htask. by rewrite Hperm in Htask.
  - unfold Notifier.handler. unfold mbind, M_bind. apply bind_Forall.
    + unfold loadDefaultConfig, call_err.
      destruct (config_LoadDefaultConfig t); by repeat constructor.
    + intros _ t'. apply range_Forall. intros record t''.
      unfold Notifier.handle_record. unfold_M.
      destruct (json_Marshal _); [|constructor].
      destruct (sns_Publish _ _ _); simpl; repeat constructor; simpl;
        by apply bool_decide_eq_true.
  - intros before. apply blob_store_no_upload.
    eapply Forall_impl; [apply (Hown MetadataWorker)|].
    intros [[] ?]; simpl; done.
Qed.

(** ** Whole batches *)

Section BatchWrites.

Context {A : Type} (body : A -> M unit) (R : A -> Event -> Prop).

(** When every good turn of a loop leaves one write, related to its
    element by [R], a loop that ends without error leaves one write per
    element, in order. *)
Lemma range_writes (xs : list A) (t evs : Trace) :
  (forall x t' evs',
      body x t' = (evs', Ok tt) -> exists ev, writes evs' = [ev] /\ R x ev) ->
  range xs body t = (evs, Ok tt) ->
  Forall2 R xs (writes evs).
Proof.
  intros Hbody. revert t evs.
  induction xs as [|x xs IH]; intros t evs Hrun.
  - injection Hrun as <-. constructor.
  - simpl in Hrun. unfold bind in Hrun.
    destruct (body x t) as [evs1 [[]|e]] eqn:Hx; [|done].
    destruct (range xs body (t ++ evs1)) as [evs2 [[]|e]] eqn:Hrest; [|done].
    injection Hrun as <-.
    destruct (Hbody _ _ _ Hx) as (ev & Hev & HR).
    unfold writes in *. rewrite filter_app, Hev. simpl.
    constructor; [done|]. by eapply IH.
Qed.

End BatchWrites.

(** The one write of a record the metadata extractor handled. *)
Lemma Metadata_handle_record_write `{Env} (record : events.SQSMessage)
      (t evs : Trace) :
  Metadata.handle_record record t = (evs, Ok tt) ->
  exists ev,
    writes evs = [ev]
    /\ exists body item,
        json_Unmarshal (events.Body record) = Ok body
        /\ ev = ok (DynamoPutItem (str "pixel-metadata") item)
        /\ item !! str "name"
           = Some (AttributeValueMemberS (Metadata.extractFilename (Key body))).
Proof.
  unfold Metadata.handle_record, Metadata.generateMetadata,
    Metadata.getObject, Metadata.createDynamoDBItem.
  unfold_M.
  destruct (json_Unmarshal _) as [body|] eqn:Hjson; [|done].
  destruct (s3_GetObject _ _ _) as [out|]; [|done].
  destruct (io_ReadAll (out_Body out)) as [bs|]; [|done].
  destruct (os_WriteFile _ _ _) as [|]; [done|].
  destruct (os_Open _ _) as [|]; [by destruct (os_Remove _ _)|].
  destruct (image_DecodeConfig bs) as [[cfg format]|];
    [|by destruct (os_Remove _ _)].
  destruct (os_Stat _ _) as [fileInfo|]; [|by destruct (os_Remove _ _)].
  destruct (os_Remove _ _);
    (destruct (dynamodb_PutItem _ _ _) as [|]; [done|]);
    simpl; intros [= <-]; eexists; (split; [reflexivity|]);
    eexists body, _; (split; [done|]); (split; [reflexivity|]); find_key.
Qed.

(** X15. A batch handled without error leaves one write per record, in
    the order of the records.  For the converter these are the
    successful uploads of the records, each at the converted path of
    its key; for the metadata extractor, the successful [PutItem]s, each
    keyed by the name of its key. *)
Theorem batch_without_error_writes_once_per_record `{Env}
        (event : events.SQSEvent) (t evs : Trace) :
  (Converter.handler event t = (evs, Ok tt) ->
   Forall2
     (fun record ev =>
        exists body jpegImg,
          json_Unmarshal (events.Body record) = Ok body
          /\ ev = ok (S3PutObject (Bucket body)
                        (str "converted/"
                           ++ Converter.extractFilename (Key body)
                           ++ str ".jpg") jpegImg))
     (events.Records event) (writes evs))
  /\ (Metadata.handler event t = (evs, Ok tt) ->
      Forall2
        (fun record ev =>
           exists body item,
             json_Unmarshal (events.Body record) = Ok body
             /\ ev = ok (DynamoPutItem (str "pixel-metadata") item)
             /\ item !! str "name"
                = Some (AttributeValueMemberS
                          (Metadata.extractFilename (Key body))))
        (events.Records event) (writes evs)).
Proof.
  split.
  - unfold Converter.handler, loadDefaultConfig.
    unfold mbind, M_bind, bind, call_err.
    destruct (config_LoadDefaultConfig t); [done|].
    destruct (range _ _ _) as [evs' [[]|e]] eqn:Hloop; [|done].
    intros [= <-]. replace (writes _) with (writes evs') by done.
    eapply (range_writes Converter.handle_record); [|exact Hloop].
    intros record t' evs1 Hrun.
    destruct (Converter_handle_record_run _ _ _ _ Hrun)
      as [(e & [=] & _)
         |(body & out & img & format & jpegImg & Hjson & _ & _ & _ & Hcase)].
    cbv zeta in Hcase. destruct Hcase as [[-> _]|(e & _ & [=])].
    eexists. split; [reflexivity|]. by exists body, jpegImg.
  - unfold Metadata.handler, loadDefaultConfig.
    unfold mbind, M_bind, bind, call_err.
    destruct (config_LoadDefaultConfig t); [done|].
    destruct (range _ _ _) as [evs' [[]|e]] eqn:Hloop; [|done].
    intros [= <-]. replace (writes _) with (writes evs') by done.
    eapply (range_writes Metadata.handle_record); [|exact Hloop].
    intros record t' evs1 Hrun. apply (Metadata_handle_record_write _ _ _ Hrun).
Qed.

Lemma batch_without_error_writes_once_per_record_witness :
  Forall2
    (fun record ev =>
       exists body jpegImg,
         json_Unmarshal (Env := Demo.env) (events.Body record) = Ok body
         /\ ev = ok (S3PutObject (Bucket body)
                       (str "converted/"
                          ++ Converter.extractFilename (Key body)
                          ++ str ".jpg") jpegImg))
    (events.Records (Demo.batch ["photos/aaa.png"; "photos/bbb.png"]%string))
    (writes (Converter.handler (H := Demo.env)
               (Demo.batch ["photos/aaa.png"; "photos/bbb.png"]%string) []).1).
Proof.
  destruct (batch_without_error_writes_once_per_record (H := Demo.env)
              (Demo.batch ["photos/aaa.png"; "photos/bbb.png"]%string) []
              (Converter.handler (H := Demo.env)
                 (Demo.batch ["photos/aaa.png"; "photos/bbb.png"]%string) []).1)
    as [Hconv _].
  apply Hconv. vm_compute. reflexivity.
Defined.

(** The base name of a key is never empty. *)
Lemma Base_not_nil (key : gostring) : filepath.Base key ≠ [].
Proof.
  destruct key as [|c key]; [done|].
  rewrite Base_nonempty by done. cbv zeta.
  by destruct (filepath.last_element _ _).
Qed.

(** X16. The keys without a name.  The name of a key is empty exactly
    when the base name of the key is a dot followed by bytes among
    which there is no dot: the empty key, whose base name is ["."],
    and the hidden files such as [".config"]. *)
Theorem extractFilename_empty_iff (key : gostring) :
  Metadata.extractFilename key = []
  <-> exists ext, filepath.Base key = "."%char :: ext /\ "."%char ∉ ext.
Proof.
  set (base := filepath.Base key).
  assert (Metadata.extractFilename key ++ filepath.Ext base = base) as Hsplit.
  { unfold Metadata.extractFilename. cbv zeta. fold base.
    destruct (Ext_suffix base) as [i ->]. apply TrimSuffix_drop. }
  split.
  - intros Hnil. rewrite Hnil in Hsplit. simpl in Hsplit.
    destruct (Ext_loop_shape base (length base))
      as [Hext|(i & Hi & Hdot & Hext & Hlast)]; [done| |].
    + exfalso. apply (Base_not_nil key). fold base.
      rewrite <- Hsplit. exact Hext.
    + exists (drop (S i) base). split.
      * rewrite <- Hsplit at 1. unfold filepath.Ext. rewrite Hext.
        by apply drop_S.
      * intros (j & Hj)%list_elem_of_lookup_1. rewrite lookup_drop in Hj.
        apply (Hlast (S i + j)); [|done].
        apply lookup_lt_Some in Hj. lia.
  - intros (ext & Hbase & Hdot).
    assert ("/"%char ∉ ext) as Hsep.
    { destruct (Base_no_sep key) as [Hroot|Hno].
      - fold base in Hroot. rewrite Hbase in Hroot. done.
      - fold base in Hno. rewrite Hbase in Hno.
        intros Hin. apply Hno. by right. }
    unfold Metadata.extractFilename. cbv zeta. fold base. rewrite Hbase.
    pose proof (Ext_dot [] ext Hdot Hsep) as Hext. simpl in Hext.
    rewrite Hext. apply (TrimSuffix_app []).
Qed.

(** ** The claims about failures, batches and sizes *)

Section Failures.

Context `{Env}.
Implicit Types (t : Trace) (w : Worker) (e : error).

(** The goroutines of the resizer make uploads and nothing else. *)
Lemma goroutines_only_upload (body : messageBody) (img : Image)
      (tasks : list Resizer.resizeTask) t :
  Forall (fun ev => is_upload ev = true)
         (range tasks (fun task => go (Resizer.resize_goroutine body img task))
                t).1.
Proof.
  apply range_Forall. intros task t'. unfold go.
  rewrite resize_goroutine_run.
  destruct (jpeg_Encode _ _); [|constructor].
  destruct (s3_PutObject _ _ _ _); by repeat constructor.
Qed.

(** A call that fails is the error of the record, unless it is one of
    the calls whose error the worker drops. *)
Lemma failed_call_is_returned w record t ev e :
  ev ∈ (handle_record_of w record t).1 ->
  ev_err ev = Some e ->
  drops_error w (ev_call ev) = false ->
  (handle_record_of w record t).2 = Err e.
Proof.
  destruct w; cbn [handle_record_of]; intros Hin Herr Hdrop; revert Hin.
  - unfold Metadata.handle_record, Metadata.generateMetadata,
      Metadata.getObject, Metadata.createDynamoDBItem. unfold_M.
    repeat match goal with
           | |- context [match ?x with _ => _ end] =>
               lazymatch x with
               | context [match _ with _ => _ end] => fail
               | _ => destruct x
               end
           end; simpl; intros Hin;
      repeat (apply elem_of_cons in Hin as [->|Hin]); simpl in *;
      try done; try congruence; by apply elem_of_nil in Hin.
  - unfold Converter.handle_record, Converter.getObject,
      Converter.putObject. unfold_M.
    repeat match goal with
           | |- context [match ?x with _ => _ end] =>
               lazymatch x with
               | context [match _ with _ => _ end] => fail
               | _ => destruct x
               end
           end; simpl; intros Hin;
      repeat (apply elem_of_cons in Hin as [->|Hin]); simpl in *;
      try done; try congruence; by apply elem_of_nil in Hin.
  - destruct (json_Unmarshal (events.Body record)) as [body|e0] eqn:Hjson.
    2: { unfold Resizer.handle_record. unfold_M. rewrite Hjson.
         simpl. intros Hin. by apply elem_of_nil in Hin. }
    destruct (s3_GetObject t (Bucket body) (Key body)) as [out|e0] eqn:Hget.
    2: { unfold Resizer.handle_record, Resizer.getObject. unfold_M.
         rewrite Hjson, app_nil_r, Hget. simpl.
         intros ->%list_elem_of_singleton. simpl in Herr.
         by injection Herr as ->. }
    destruct (image_Decode (out_Body out)) as [[img format]|e0] eqn:Hdec.
    + rewrite (Resizer_handle_record_after_decode _ _ _ _ _ _ Hjson Hget Hdec).
      simpl. intros [->|Hin]%elem_of_cons; [done|].
      pose proof (goroutines_only_upload body img
                    (go_schedule Resizer.resizeTask Resizer.resizeTasks)
                    (t ++ [ok (S3GetObject (Bucket body) (Key body))]))
        as Hups.
      rewrite Forall_forall in Hups. specialize (Hups ev Hin).
      destruct ev as [[] ?]; done.
    + rewrite (Resizer_decode_fails _ _ _ _ _ Hjson Hget Hdec). simpl.
      intros ->%list_elem_of_singleton. done.
Qed.

(** The error of a record, after records handled without error, is the
    result of the handler, and nothing is done for the records after
    it. *)
Lemma handler_stops_at w pre record post t evs e :
  config_LoadDefaultConfig t = None ->
  range pre (handle_record_of w) (t ++ [ok LoadDefaultConfig]) = (evs, Ok tt) ->
  (handle_record_of w record ((t ++ [ok LoadDefaultConfig]) ++ evs)).2
  = Err e ->
  handler_of w {| events.Records := pre ++ record :: post |} t
  = (ok LoadDefaultConfig
       :: evs ++ (handle_record_of w record
                    ((t ++ [ok LoadDefaultConfig]) ++ evs)).1,
     Err e).
Proof.
  intros Hcfg Hpre Hrec.
  destruct (handle_record_of w record _) as [evs' r] eqn:Hrun.
  simpl in Hrec. subst r.
  rewrite handler_of_unfold, after_config by done. simpl.
  by rewrite (range_stops _ _ _ _ _ _ _ _ Hpre Hrun).
Qed.

End Failures.

(** A record whose object does not pass the decode step of the worker
    fails, before any write. *)
Lemma decode_error_fails_record `{Env} (w : Worker)
      (record : events.SQSMessage) (body : messageBody)
      (out : GetObjectOutput) (e : error) (t : Trace) :
  json_Unmarshal (events.Body record) = Ok body ->
  s3_GetObject t (Bucket body) (Key body) = Ok out ->
  decode_error w (out_Body out) = Some e ->
  exists evs' e',
    handle_record_of w record t = (evs', Err e')
    /\ writes evs' = []
    /\ (e' = e \/ w = MetadataWorker /\ exists c, failed c e' ∈ evs').
Proof.
  intros Hjson Hget Hdec. destruct w; simpl in Hdec |- *.
  - destruct (io_ReadAll (out_Body out)) as [bs|] eqn:Hbody; [|done].
    destruct (image_DecodeConfig bs) as [|e0] eqn:Hcfgdec; [done|].
    injection Hdec as ->.
    destruct (Metadata_decode_fails _ _ _ _ _ _ Hjson Hget Hbody Hcfgdec)
      as (evs' & e' & ? & ? & [?|?]); exists evs', e'; auto.
  - destruct (image_Decode (out_Body out)) as [|e0] eqn:Hfull; [done|].
    injection Hdec as ->. eexists _, _. split.
    { by apply (Converter_decode_fails _ _ _ _ _ Hjson Hget). }
    split; [done|by left].
  - destruct (image_Decode (out_Body out)) as [|e0] eqn:Hfull; [done|].
    injection Hdec as ->. eexists _, _. split.
    { by apply (Resizer_decode_fails _ _ _ _ _ Hjson Hget). }
    split; [done|by left].
Qed.

(** X17. A batch is all-or-nothing for the errors a worker returns.
    After records handled without error, the handler of each worker
    returns, as its one result for the whole batch and without looking
    at the records that follow:
    - the parse error of a record whose body is not the JSON of a
      message, before any call;
    - the fetch error of a record whose [GetObject] fails, after that
      one call;
    - an error, for a record whose object does not pass the decode step
      of the worker: the decoder's, unless the metadata extractor
      already failed on its temporary file;
    - in the converter, the error of a failed JPEG encoding;
    - the error of any call that fails, the persisting calls among
      them ([PutItem] in the metadata extractor, [PutObject] in the
      converter), unless the worker drops the result of that call: the
      deferred [os.Remove] of the metadata extractor, and every
      [PutObject] of the resizer, which is made inside a goroutine.
    And a handler that returns nil has handled every record of the
    batch without error. *)
Theorem batch_fails_as_a_whole `{Env} (w : Worker)
        (pre post : list events.SQSMessage) (record : events.SQSMessage)
        (t evs : Trace) :
  config_LoadDefaultConfig t = None ->
  range pre (handle_record_of w) (t ++ [ok LoadDefaultConfig]) = (evs, Ok tt) ->
  let t1 := (t ++ [ok LoadDefaultConfig]) ++ evs in
  let run := handle_record_of w record t1 in
  let fails_with (e : error) :=
    handler_of w {| events.Records := pre ++ record :: post |} t
    = (ok LoadDefaultConfig :: evs ++ run.1, Err e) in
  (forall e,
      json_Unmarshal (events.Body record) = Err e ->
      run.1 = [] /\ fails_with e)
  /\ (forall body e,
        json_Unmarshal (events.Body record) = Ok body ->
        s3_GetObject t1 (Bucket body) (Key body) = Err e ->
        run.1 = [failed (S3GetObject (Bucket body) (Key body)) e]
        /\ fails_with e)
  /\ (forall body out e,
        json_Unmarshal (events.Body record) = Ok body ->
        s3_GetObject t1 (Bucket body) (Key body) = Ok out ->
        decode_error w (out_Body out) = Some e ->
        exists e',
          fails_with e'
          /\ (e' = e \/ w = MetadataWorker /\ exists c, failed c e' ∈ run.1))
  /\ (forall body out img format e,
        w = ConverterWorker ->
        json_Unmarshal (events.Body record) = Ok body ->
        s3_GetObject t1 (Bucket body) (Key body) = Ok out ->
        image_Decode (out_Body out) = Ok (img, format) ->
        jpeg_Encode img {| Quality := 100 |} = Err e ->
        fails_with e)
  /\ (forall ev e,
        ev ∈ run.1 -> ev_err ev = Some e ->
        drops_error w (ev_call ev) = false ->
        fails_with e)
  /\ (forall event out pre' record' post',
        handler_of w event t = (out, Ok tt) ->
        events.Records event = pre' ++ record' :: post' ->
        exists evs1 evs2,
          range pre' (handle_record_of w) (t ++ [ok LoadDefaultConfig])
          = (evs1, Ok tt)
          /\ handle_record_of w record'
               ((t ++ [ok LoadDefaultConfig]) ++ evs1) = (evs2, Ok tt)).
Proof.
  intros Hcfg Hpre t1 run fails_with.
  assert (forall e, run.2 = Err e -> fails_with e) as Hstop.
  { intros e He. by apply handler_stops_at. }
  assert (forall evs' e, run = (evs', Err e) -> run.1 = evs' /\ fails_with e)
    as Hrun.
  { intros evs' e Hr. split; [by rewrite Hr|]. apply Hstop. by rewrite Hr. }
  split; [|split; [|split; [|split; [|split]]]].
  - intros e Hjson. apply Hrun. subst run. destruct w; simpl;
      unfold Metadata.handle_record, Converter.handle_record,
        Resizer.handle_record; unfold_M; by rewrite Hjson.
  - intros body e Hjson Hget. apply Hrun. subst run. destruct w; simpl;
      unfold Metadata.handle_record, Metadata.generateMetadata,
        Metadata.getObject, Converter.handle_record, Converter.getObject,
        Resizer.handle_record, Resizer.getObject; unfold_M;
      by rewrite Hjson, app_nil_r, Hget.
  - intros body out e Hjson Hget Hdec.
    destruct (decode_error_fails_record w record body out e t1 Hjson Hget Hdec)
      as (evs' & e' & Hrec & _ & Herr).
    destruct (Hrun _ _ Hrec) as [Hevs Hfail].
    exists e'. split; [done|]. by rewrite Hevs.
  - intros body out img format e -> Hjson Hget Hdec Henc.
    apply Hstop. subst run. simpl.
    unfold Converter.handle_record, Converter.getObject,
      Converter.convertToJPEG. unfold_M.
    by rewrite Hjson, app_nil_r, Hget, Hdec, Henc.
  - intros ev e Hin Herr Hdrop. apply Hstop.
    by apply (failed_call_is_returned w record t1 ev e).
  - intros event out pre' record' post' Hnil Hrecords.
    rewrite handler_of_unfold, after_config, Hrecords in Hnil by done.
    destruct (range (pre' ++ record' :: post') (handle_record_of w)
                    (t ++ [ok LoadDefaultConfig])) as [evs0 [[]|e0]] eqn:Hloop;
      [|done].
    by apply (range_Ok_inv _ _ _ _ _ _ Hloop).
Qed.

Lemma batch_fails_as_a_whole_witness :
  handler_of (H := Demo.env) ConverterWorker
    (Demo.batch ["photos/aaa.png"; "photos/gone.png"; "photos/bbb.png"]%string) []
  = ([ok LoadDefaultConfig;
      ok (S3GetObject (str "pixel") (str "photos/aaa.png"));
      ok (S3PutObject (str "pixel") (str "converted/aaa.jpg")
                      (str "JPEG 640 q100"));
      failed (S3GetObject (str "pixel") (str "photos/gone.png"))
             (str "NoSuchKey")],
     Err (str "NoSuchKey")).
Proof.
  destruct (batch_fails_as_a_whole (H := Demo.env) ConverterWorker
              [Demo.message "photos/aaa.png"] [Demo.message "photos/bbb.png"]
              (Demo.message "photos/gone.png") []
              [ok (S3GetObject (str "pixel") (str "photos/aaa.png"));
               ok (S3PutObject (str "pixel") (str "converted/aaa.jpg")
                               (str "JPEG 640 q100"))])
    as (_ & Hfetch & _); [vm_compute; reflexivity..|].
  destruct (Hfetch (Demo.uploaded "photos/gone.png") (str "NoSuchKey"))
    as [Hevs Hfails]; [vm_compute; reflexivity..|].
  rewrite Hevs in Hfails. exact Hfails.
Defined.

(** C3 (what the code does).  In the resizer a persist error does not
    fail the batch.  The upload of the medium size of the first message
    fails; the handler goes on with the second message and returns nil
    for the batch, where the converter, on a failed upload, returns the
    error at once. *)
Theorem Resizer_batch_goes_on_after_failed_upload :
  handler_of (H := Demo.env) ResizerWorker
    (Demo.batch ["photos/bbb.png"; "photos/aaa.png"]%string) []
  = ([ok LoadDefaultConfig;
      ok (S3GetObject (str "pixel") (str "photos/bbb.png"));
      ok (S3PutObject (str "pixel") (str "resized/bbb/large.jpg")
                      (str "JPEG 1000 q100"));
      failed (S3PutObject (str "pixel") (str "resized/bbb/medium.jpg")
                          (str "JPEG 500 q100"))
             (str "RequestTimeout");
      ok (S3PutObject (str "pixel") (str "resized/bbb/thumbnail.jpg")
                      (str "JPEG 100 q100"));
      ok (S3GetObject (str "pixel") (str "photos/aaa.png"));
      ok (S3PutObject (str "pixel") (str "resized/aaa/large.jpg")
                      (str "JPEG 1000 q100"));
      ok (S3PutObject (str "pixel") (str "resized/aaa/medium.jpg")
                      (str "JPEG 500 q100"));
      ok (S3PutObject (str "pixel") (str "resized/aaa/thumbnail.jpg")
                      (str "JPEG 100 q100"))],
     Ok tt).
Proof. vm_compute. reflexivity. Qed.

(** C2. A record whose object does not pass the decode step of the
    worker makes the handler return an error, and handling it performs
    no write: no [PutItem] and no [PutObject] is even attempted for it.
    The decode step is [image.Decode], of the whole image, in the
    converter and in the resizer, and [image.DecodeConfig], of the
    header alone, in the metadata extractor.  The error is the
    decoder's, unless the metadata extractor already failed on its
    temporary file. *)
Theorem decode_failure_is_contained `{Env} (w : Worker)
        (pre post : list events.SQSMessage) (record : events.SQSMessage)
        (body : messageBody) (out : GetObjectOutput)
        (e : error) (t evs : Trace) :
  config_LoadDefaultConfig t = None ->
  range pre (handle_record_of w) (t ++ [ok LoadDefaultConfig]) = (evs, Ok tt) ->
  json_Unmarshal (events.Body record) = Ok body ->
  s3_GetObject ((t ++ [ok LoadDefaultConfig]) ++ evs) (Bucket body) (Key body)
  = Ok out ->
  decode_error w (out_Body out) = Some e ->
  exists evs' e',
    handler_of w {| events.Records := pre ++ record :: post |} t
    = (ok LoadDefaultConfig :: evs ++ evs', Err e')
    /\ writes evs' = []
    /\ writes (ok LoadDefaultConfig :: evs ++ evs')
       = writes (ok LoadDefaultConfig :: evs)
    /\ (e' = e \/ w = MetadataWorker /\ exists c, failed c e' ∈ evs').
Proof.
  intros Hcfg Hpre Hjson Hget Hdec.
  destruct (decode_error_fails_record w record body out e _ Hjson Hget Hdec)
    as (evs' & e' & Hrec & Hwrites & Herr).
  exists evs', e'. split; [|split; [done|split; [|done]]].
  - rewrite handler_of_unfold, after_config by done. simpl.
    by rewrite (range_stops _ _ _ _ _ _ _ _ Hpre Hrec).
  - unfold writes in *.
    by rewrite !filter_cons, filter_app, Hwrites, app_nil_r.
Qed.

Lemma decode_failure_is_contained_witness :
  exists evs' e',
    handler_of (H := Demo.env) MetadataWorker
      (Demo.batch ["photos/bad.png"; "photos/aaa.png"]%string) []
    = (ok LoadDefaultConfig :: [] ++ evs', Err e')
    /\ writes evs' = []
    /\ writes (ok LoadDefaultConfig :: [] ++ evs')
       = writes (ok LoadDefaultConfig :: [])
    /\ (e' = str "image: unknown format"
        \/ MetadataWorker = MetadataWorker /\ exists c, failed c e' ∈ evs').
Proof.
  apply (decode_failure_is_contained (H := Demo.env) MetadataWorker
           [] [Demo.message "photos/aaa.png"] (Demo.message "photos/bad.png")
           (Demo.uploaded "photos/bad.png")
           {| out_Body := Demo.stream Demo.garbage |}
           (str "image: unknown format") [] []);
    vm_compute; reflexivity.
Defined.

(** Counterexample for C2 as the specification words it: an object
    whose header decodes and whose pixels do not.  [image.Decode] fails on it, and
    the converter and the resizer return that error; the metadata
    extractor, which decodes the header alone, returns nil and puts
    the record of the name into the table. *)
Lemma Metadata_records_an_image_that_does_not_decode :
  let event := Demo.batch ["photos/cut.png"%string] in
  s3_GetObject (Env := Edge.env) [ok LoadDefaultConfig]
               (str "pixel") (str "photos/cut.png")
  = Ok {| out_Body := Demo.stream Edge.cut |}
  /\ image_Decode (Env := Edge.env) (Demo.stream Edge.cut)
     = Err (str "unexpected EOF")
  /\ returned (Converter.handler (H := Edge.env) event [])
     = Some (str "unexpected EOF")
  /\ returned (Resizer.handler (H := Edge.env) event [])
     = Some (str "unexpected EOF")
  /\ returned (Metadata.handler (H := Edge.env) event []) = None
  /\ exists item,
      writes (Metadata.handler (H := Edge.env) event []).1
      = [ok (DynamoPutItem (str "pixel-metadata") item)]
      /\ item !! str "name" = Some (AttributeValueMemberS (str "cut")).
Proof.
  cbv zeta. repeat (split; [vm_compute; reflexivity|]).
  eexists. split; [vm_compute; reflexivity|]. vm_compute. reflexivity.
Qed.

(** ** The sizes of the resized images *)

(** The resizing of the second world computes its height the way the
    package does, [uint(0.7 + oldHeight * width / oldWidth)], and meets
    the contract. *)
Lemma Edge_resize_contract : resize_contract (H := Edge.env).
Proof.
  intros width [W Hh] interp Hwidth HW HH.
  cbv [resize_Resize image_Dx image_Dy Edge.env Edge.resize fst snd] in *.
  cbv zeta. cbv [fst snd].
  rewrite bool_decide_false by lia. rewrite bool_decide_true by done.
  split; [done|].
  pose proof (N.div_mod (7 * W + 10 * Hh * width) (10 * W) ltac:(lia)) as Hdiv.
  pose proof (N.mod_lt (7 * W + 10 * Hh * width) (10 * W) ltac:(lia)) as Hlt.
  set (q := ((7 * W + 10 * Hh * width) / (10 * W))%N) in *.
  set (r := ((7 * W + 10 * Hh * width) mod (10 * W))%N) in *.
  split; nia.
Qed.

(** C5. Every artifact of the resizer has the width of its task.  For
    a decoded image that has pixels, goroutines run in some order of
    the three tasks and a [resize.Resize] that meets its contract, every
    upload of the record is the JPEG encoding, at quality 100, of the
    image resized for one of the three tasks, at the path of that task;
    the width of that image is the width of the task, 100, 500 or 1000,
    whatever the width of the original is, and its height is the
    height of the original scaled by the same factor, within one
    pixel. *)
Theorem Resizer_artifacts_have_the_target_width `{Env}
        (record : events.SQSMessage) (body : messageBody)
        (out : GetObjectOutput) (img : Image) (format : gostring)
        (t : Trace) :
  resize_contract ->
  (forall (A : Type) (l : list A), go_schedule A l ≡ₚ l) ->
  json_Unmarshal (events.Body record) = Ok body ->
  s3_GetObject t (Bucket body) (Key body) = Ok out ->
  image_Decode (out_Body out) = Ok (img, format) ->
  (0 < image_Dx img)%N ->
  (0 < image_Dy img)%N ->
  exists ups,
    Resizer.handle_record record t
    = (ok (S3GetObject (Bucket body) (Key body)) :: ups, Ok tt)
    /\ Forall
         (fun ev =>
            exists task jpegImg,
              let resized := resize_Resize (Resizer.Width task) 0 img Lanczos3 in
              task ∈ Resizer.resizeTasks
              /\ Resizer.Width task ∈ [100; 500; 1000]%N
              /\ jpeg_Encode resized {| Quality := 100 |} = Ok jpegImg
              /\ ev_call ev
                 = S3PutObject (Bucket body)
                     (Resizer.ResizedFolder
                        ++ Resizer.extractFilename (Key body) ++ str "/"
                        ++ Resizer.SizeName task ++ str ".jpg")
                     jpegImg
              /\ image_Dx resized = Resizer.Width task
              /\ (image_Dy resized * image_Dx img
                  <= image_Dy img * Resizer.Width task + image_Dx img)%N
              /\ (image_Dy img * Resizer.Width task
                  <= image_Dy resized * image_Dx img + image_Dx img)%N)
         ups.
Proof.
  intros Hcontract Hperm Hjson Hget Hdec HW HH.
  eexists. split.
  { apply (Resizer_handle_record_after_decode _ _ _ _ _ _ Hjson Hget Hdec). }
  apply Forall_forall. intros ev Hev.
  pose proof (goroutines_calls body img
                (go_schedule Resizer.resizeTask Resizer.resizeTasks)
                (t ++ [ok (S3GetObject (Bucket body) (Key body))])) as Hcalls.
  assert (ev_call ev
          ∈ omap (upload_call body img)
                 (go_schedule Resizer.resizeTask Resizer.resizeTasks)) as Hc.
  { rewrite <- Hcalls. apply list_elem_of_fmap. by exists ev. }
  apply list_elem_of_omap in Hc as (task & Htask & Hup).
  rewrite Hperm in Htask.
  unfold upload_call, Resizer.convertToJPEG in Hup. cbv zeta in Hup.
  destruct (jpeg_Encode _ _) as [j|] eqn:Hj; [|done].
  injection Hup as Hup.
  assert (Resizer.Width task ∈ [100; 500; 1000]%N) as Hwidth.
  { unfold Resizer.resizeTasks in Htask.
    repeat (apply elem_of_cons in Htask as [->|Htask]); simpl;
      [in_list..|by apply elem_of_nil in Htask]. }
  exists task, j. cbv zeta.
  split; [done|]. split; [done|]. split; [done|]. split; [done|].
  apply Hcontract; [|done..].
  intros Hzero. rewrite Hzero in Hwidth.
  repeat (apply elem_of_cons in Hwidth as [Hwidth|Hwidth]); try done.
  by apply elem_of_nil in Hwidth.
Qed.

Lemma Resizer_artifacts_have_the_target_width_witness :
  exists ups,
    Resizer.handle_record (H := Edge.env) (Demo.message "photos/small.png") []
    = (ok (S3GetObject (str "pixel") (str "photos/small.png")) :: ups, Ok tt)
    /\ Forall
         (fun ev =>
            exists task jpegImg,
              let resized :=
                resize_Resize (Env := Edge.env) (Resizer.Width task) 0
                              (50%N, 40%N) Lanczos3 in
              task ∈ Resizer.resizeTasks
              /\ Resizer.Width task ∈ [100; 500; 1000]%N
              /\ jpeg_Encode resized {| Quality := 100 |} = Ok jpegImg
              /\ ev_call ev
                 = S3PutObject (str "pixel")
                     (Resizer.ResizedFolder
                        ++ Resizer.extractFilename (str "photos/small.png")
                        ++ str "/" ++ Resizer.SizeName task ++ str ".jpg")
                     jpegImg
              /\ image_Dx resized = Resizer.Width task
              /\ (image_Dy resized * 50 <= 40 * Resizer.Width task + 50)%N
              /\ (40 * Resizer.Width task <= image_Dy resized * 50 + 50)%N)
         ups.
Proof.
  apply (Resizer_artifacts_have_the_target_width (H := Edge.env)
           (Demo.message "photos/small.png")
           (Demo.uploaded "photos/small.png")
           {| out_Body := Demo.stream Edge.small |}
           (50%N, 40%N) (str "png") []).
  - exact Edge_resize_contract.
  - intros A l. reflexivity.
  - vm_compute. reflexivity.
  - vm_compute. reflexivity.
  - vm_compute. reflexivity.
  - vm_compute. reflexivity.
  - vm_compute. reflexivity.
Defined.

(** Counterexample for C5 as the specification words it: a picture of
    50 by 40 pixels, narrower than every target width.  Its three artifacts are
    100, 500 and 1000 pixels wide, not 50: the handler gives the width
    of the task to [resize.Resize] without looking at the width of the
    image, and the image is enlarged. *)
Lemma narrow_image_is_enlarged :
  let img : Image (Env := Edge.env) := (50%N, 40%N) in
  resize_contract (H := Edge.env)
  /\ image_Decode (Env := Edge.env) (Demo.stream Edge.small)
     = Ok (img, str "png")
  /\ image_Dx img = 50%N
  /\ image_Dx (resize_Resize 100 0 img Lanczos3) = 100%N
  /\ image_Dx (resize_Resize 500 0 img Lanczos3) = 500%N
  /\ image_Dx (resize_Resize 1000 0 img Lanczos3) = 1000%N
  /\ Resizer.handle_record (H := Edge.env) (Demo.message "photos/small.png") []
     = ([ok (S3GetObject (str "pixel") (str "photos/small.png"));
         ok (S3PutObject (str "pixel") (str "resized/small/thumbnail.jpg")
                         (str "JPEG 100x80 q100"));
         ok (S3PutObject (str "pixel") (str "resized/small/medium.jpg")
                         (str "JPEG 500x400 q100"));
         ok (S3PutObject (str "pixel") (str "resized/small/large.jpg")
                         (str "JPEG 1000x800 q100"))],
        Ok tt).
Proof.
  cbv zeta. split; [exact Edge_resize_contract|].
  repeat (split; [vm_compute; reflexivity|]). vm_compute. reflexivity.
Qed.

(** C6 (what the code does).  The resizer handles the message of
    photos/bbb.png with success, its result is nil, and has written
    two blobs, not three: the upload of the medium size failed inside
    its goroutine, and nothing is at [resized/bbb/medium.jpg]. *)
Theorem Resizer_success_with_two_artifacts :
  let run :=
    Resizer.handle_record (H := Demo.env) (Demo.message "photos/bbb.png") [] in
  let store := blob_store ∅ run.1 in
  run.2 = Ok tt
  /\ filter (fun ev => ev_err ev = None) (uploads run.1)
     = [ok (S3PutObject (str "pixel") (str "resized/bbb/large.jpg")
                        (str "JPEG 1000 q100"));
        ok (S3PutObject (str "pixel") (str "resized/bbb/thumbnail.jpg")
                        (str "JPEG 100 q100"))]
  /\ store !! (str "pixel", str "resized/bbb/large.jpg")
     = Some (str "JPEG 1000 q100")
  /\ store !! (str "pixel", str "resized/bbb/thumbnail.jpg")
     = Some (str "JPEG 100 q100")
  /\ store !! (str "pixel", str "resized/bbb/medium.jpg") = None
  /\ size store = 2.
Proof.
  cbv zeta. repeat (split; [vm_compute; reflexivity|]). vm_compute. reflexivity.
Qed.
